(** * tinci-mcp: Cantonese tone classification and rhyme lookup

    A shallow embedding of [canmcp/tone_mapper.py] and
    [tinci_mcp/rhyme_lookup.py], with the properties of the tone classifier,
    the syllable parser, the tone-pattern analyzer, the character index and
    the rhyme query engine.

    Conventions of the embedding.
    - A Python [int] is a [Z].
    - A Python [str] is a [string].  Where the code looks inside a string
      (the syllable parser reads the last character), one [ascii] is one
      code point, which covers the code points U+0000 to U+00FF.  Where the
      code only compares, hashes and sorts strings (characters and finals of
      the dataset), a literal's UTF-8 bytes stand for the text: equality and
      lexicographic order of UTF-8 byte strings agree with those of the
      code-point strings.
    - A Python [dict] whose iteration order is observed (the rhyme dataset)
      is an association list in insertion order; a [dict] that is only
      looked up (the tone tables, the character index) is a [gmap].
    - A call that can raise returns an [outcome]. *)

From Stdlib Require Import ZArith String Ascii DecimalString.
From stdpp Require Import base option list gmap strings sorting.

Local Open Scope string_scope.
Local Open Scope list_scope.
Local Open Scope Z_scope.

(** ** Python built-ins used by the code *)

Module Py.

Inductive exn : Type :=
| ValueError.

Inductive outcome (A : Type) : Type :=
| Returns (a : A)
| Raises (e : exn).
Arguments Returns {A} a.
Arguments Raises {A} e.

Definition bind {A B} (m : outcome A) (k : A → outcome B) : outcome B :=
  match m with
  | Returns a => k a
  | Raises e => Raises e
  end.

#[global] Instance outcome_ret : MRet outcome := λ A a, Returns a.
#[global] Instance outcome_bind : MBind outcome := λ A B k m, bind m k.

(** [s[-1]] of a non-empty [s]; [None] when [s] is empty (the code tests
    [not s] before it indexes). *)
Fixpoint last_char (s : string) : option ascii :=
  match s with
  | EmptyString => None
  | String c EmptyString => Some c
  | String _ rest => last_char rest
  end.

Definition code (c : ascii) : Z := Z.of_N (N_of_ascii c).

(** [c.isdecimal()]: the characters of category Nd.  Below U+0100 these
    are the ten ASCII digits. *)
Definition isdecimal (c : ascii) : bool :=
  bool_decide (48 ≤ code c ≤ 57).

(** [c.isdigit()]: the decimal characters and the characters whose
    Numeric_Type is Digit.  Below U+0100 the latter are the superscripts
    U+00B2, U+00B3 and U+00B9. *)
Definition isdigit (c : ascii) : bool :=
  isdecimal c
  || bool_decide (code c = 178) || bool_decide (code c = 179)
  || bool_decide (code c = 185).

(** [int(c)] of a one-character string: the value of a decimal character,
    [ValueError] for any other character. *)
Definition int (c : ascii) : outcome Z :=
  if isdecimal c then Returns (code c - 48) else Raises ValueError.

(** [l[:stop]]: a negative [stop] counts from the end, and both ends are
    clamped to the list. *)
Definition slice_to {A} (l : list A) (stop : Z) : list A :=
  if bool_decide (0 ≤ stop) then take (Z.to_nat stop) l
  else take (Z.to_nat (Z.of_nat (length l) + stop)) l.

(** [sep.join(parts)] *)
Definition join (sep : string) (parts : list string) : string :=
  String.concat sep parts.

(** [sorted(l)] of a list of strings, in the order of [str]
    (lexicographic on code points).  A stable merge sort, as Python's;
    on a total order any sort returns the same list. *)
Definition sorted (l : list string) : list string :=
  merge_sort String.le l.

(** A [dict] in insertion order: [d.get(k)], [k in d] and [d.keys()].
    The keys of a [dict] are pairwise distinct. *)
Fixpoint dict_get {V} (d : list (string * V)) (k : string) : option V :=
  match d with
  | [] => None
  | (k', v) :: rest => if decide (k' = k) then Some v else dict_get rest k
  end.

Definition dict_keys {V} (d : list (string * V)) : list string := d.*1.

Definition dict_contains {V} (d : list (string * V)) (k : string) : bool :=
  bool_decide (k ∈ dict_keys d).

Definition dict_wf {V} (d : list (string * V)) : Prop := NoDup (dict_keys d).

End Py.

Export Py.

(** ** canmcp/tone_mapper.py *)

Module ToneMapper.

Definition TONE_TO_1056 : gmap Z string :=
  list_to_map
    [ (1, "1"); (2, "1"); (7, "1");
      (4, "0");
      (3, "5"); (5, "5"); (8, "5");
      (6, "6"); (9, "6") ].

Definition TONE_TO_0243 : gmap Z string :=
  list_to_map
    [ (1, "3"); (2, "3"); (7, "3");
      (4, "0");
      (3, "2"); (5, "2"); (8, "2");
      (6, "4"); (9, "4") ].

(** [ToneSystem] is a string literal type; the code only tests
    [system == "1056"]. *)
Definition ToneSystem := string.

(** The romanizer hands over [None] for a character it does not know, so
    the argument is optional; [not jyutping] holds of [None] and of the
    empty string. *)
Definition extract_tone_from_jyutping (jyutping : option string)
  : outcome (option Z) :=
  match jyutping with
  | None => Returns None
  | Some s =>
    match last_char s with
    | None => Returns None
    | Some last_char =>
      if isdigit last_char then
        tone ← int last_char;
        if bool_decide (1 ≤ tone ≤ 9) then Returns (Some tone)
        else Returns None
      else Returns None
    end
  end.

Definition map_tone (tone : Z) (system : ToneSystem) : string :=
  let mapping :=
    if bool_decide (system = "1056") then TONE_TO_1056 else TONE_TO_0243 in
  default "?" (mapping !! tone).

(** An item of [breakdown]. *)
Record breakdown_item : Type := BreakdownItem {
  character : string;
  jyutping : option string;
  tone : option Z;
  mapped : option string;
}.

Record analysis : Type := Analysis {
  system : ToneSystem;
  pattern : string;
  breakdown : list breakdown_item;
}.

(** The [for] loop of [analyze_tones], on the two lists it appends to. *)
Fixpoint analyze_loop (system : ToneSystem)
    (jyutping_pairs : list (string * option string))
    (breakdown : list breakdown_item) (pattern_chars : list string)
  : outcome (list breakdown_item * list string) :=
  match jyutping_pairs with
  | [] => Returns (breakdown, pattern_chars)
  | (char, jyutping) :: rest =>
    tone ← extract_tone_from_jyutping jyutping;
    match tone with
    | Some tone =>
      let mapped := map_tone tone system in
      analyze_loop system rest
        (breakdown ++ [BreakdownItem char jyutping (Some tone) (Some mapped)])
        (pattern_chars ++ [mapped])
    | None =>
      analyze_loop system rest
        (breakdown ++ [BreakdownItem char jyutping None None])
        pattern_chars
    end
  end.

Definition analyze_tones (jyutping_pairs : list (string * option string))
    (system : ToneSystem) : outcome analysis :=
  '(breakdown, pattern_chars) ← analyze_loop system jyutping_pairs [] [];
  Returns (Analysis system (join "" pattern_chars) breakdown).

End ToneMapper.

(** ** tinci_mcp/rhyme_lookup.py *)

Module RhymeLookup.

(** An object of a final's ["characters"] list: ["char"], ["jyutping"] and
    ["tone"]. *)
Record entry : Type := Entry {
  e_char : string;
  e_jyutping : string;
  e_tone : Z;
}.

(** The object stored under a final; its ["characters"] key may be
    missing, and the code reads it with [.get("characters", [])]. *)
Record final_data : Type := FinalData {
  characters : option (list entry);
}.

(** The value of [load_rhyme_data()], the content of [data/rhymes.json].
    The functions below take it as an argument. *)
Definition RhymeData := list (string * final_data).

(** [(final, jyutping, tone)] *)
Definition reading : Type := string * string * Z.

Abbreviation CharacterInfo := (gmap string (list reading)).

(** The body of the inner loop of [build_character_index]. *)
Definition index_entry (final : string) (char_index : CharacterInfo)
    (entry : entry) : CharacterInfo :=
  let char := e_char entry in
  let jyutping := e_jyutping entry in
  let tone := e_tone entry in
  let char_index :=
    if bool_decide (char_index !! char = None)
    then <[char := []]> char_index else char_index in
  alter (λ l, l ++ [(final, jyutping, tone)]) char char_index.

Definition build_character_index (rhyme_data : RhymeData) : CharacterInfo :=
  foldl
    (λ char_index '(final, data),
       foldl (index_entry final) char_index (default [] (characters data)))
    ∅ rhyme_data.

Definition get_character_info (rhyme_data : RhymeData) (char : string)
  : option (list reading) :=
  let char_index := build_character_index rhyme_data in
  char_index !! char.

(** An item of [rhymes], and the [input] object of a result. *)
Record char_record : Type := CharRecord {
  character : string;
  jyutping : string;
  tone : Z;
  tone_group : string;
}.

Record rhyme_result : Type := RhymeResult {
  input : char_record;
  final : string;
  system : string;
  tone_filter : string;
  rhymes : list char_record;
  count : nat;
  total_count : nat;
  target_tone : option Z;
  target_group : option string;
}.

(** The two shapes of the value of [find_rhyming_characters]. *)
Inductive find_result : Type :=
| NotFound (error : string) (input_character : string)
    (rhymes : list char_record)
| Found (result : rhyme_result).

(** The two shapes of the value of [get_characters_by_final]. *)
Inductive final_result : Type :=
| FinalNotFound (error : string) (available_finals : list string)
| FinalFound (final : string) (tone_filter : option Z)
    (characters : list entry) (count total_count : nat).

Section WithToneTables.

(** [TONE_TO_1056] and [TONE_TO_0243] are imported from
    [tinci_mcp/tone_mapper.py], which is not among the sources. *)
Variables TONE_TO_1056 TONE_TO_0243 : gmap Z string.

Definition get_tone_group (tone : Z) (system : string) : string :=
  let mapping :=
    if bool_decide (system = "1056") then TONE_TO_1056 else TONE_TO_0243 in
  default "?" (mapping !! tone).

(** The [for entry in all_rhymes] loop, on the list it appends to.
    [continue] goes on with the list as it is, [append] with the entry's
    record added. *)
Fixpoint filter_loop (character tone_filter system : string) (tone : Z)
    (input_tone_group : string) (target_tone : option Z)
    (target_group : option string)
    (all_rhymes : list entry) (filtered_rhymes : list char_record)
  : list char_record :=
  match all_rhymes with
  | [] => filtered_rhymes
  | entry :: rest =>
    let continue :=
      filter_loop character tone_filter system tone input_tone_group
        target_tone target_group rest filtered_rhymes in
    if bool_decide (e_char entry = character) then continue
    else
      let entry_tone := e_tone entry in
      let entry_tone_group := get_tone_group entry_tone system in
      let append :=
        filter_loop character tone_filter system tone input_tone_group
          target_tone target_group rest
          (filtered_rhymes ++
             [CharRecord (e_char entry) (e_jyutping entry) entry_tone
                entry_tone_group]) in
      match target_tone, target_group with
      | Some target_tone, _ =>
        if bool_decide (entry_tone ≠ target_tone) then continue else append
      | None, Some target_group =>
        if bool_decide (entry_tone_group ≠ target_group) then continue
        else append
      | None, None =>
        if bool_decide (tone_filter = "same") then
          if bool_decide (entry_tone ≠ tone) then continue else append
        else if bool_decide (tone_filter = "group") then
          if bool_decide (entry_tone_group ≠ input_tone_group) then continue
          else append
        else append
      end
  end.

(** [all_rhymes]: the entries stored under [final]. *)
Definition all_rhymes_of (rhyme_data : RhymeData) (final : string)
  : list entry :=
  let final_data := default (FinalData None) (dict_get rhyme_data final) in
  default [] (characters final_data).

(** [filtered_rhymes] at the end of the loop. *)
Definition filtered_rhymes_of (rhyme_data : RhymeData)
    (character tone_filter system : string)
    (target_tone : option Z) (target_group : option string)
    (first : reading) : list char_record :=
  let '(final, jyutping, tone) := first in
  let input_tone_group := get_tone_group tone system in
  filter_loop character tone_filter system tone input_tone_group
    target_tone target_group (all_rhymes_of rhyme_data final) [].

Definition find_rhyming_characters (rhyme_data : RhymeData)
    (character tone_filter system : string) (limit : Z)
    (target_tone : option Z) (target_group : option string)
  : find_result :=
  match get_character_info rhyme_data character with
  | None | Some [] =>
    NotFound
      ("Character '" +:+ character +:+ "' not found in rhyme database")
      character []
  | Some (((final, jyutping, tone) as first) :: _) =>
    let input_tone_group := get_tone_group tone system in
    let filtered_rhymes :=
      filtered_rhymes_of rhyme_data character tone_filter system
        target_tone target_group first in
    let total_count := length filtered_rhymes in
    let limited_rhymes := slice_to filtered_rhymes limit in
    Found
      {| input := CharRecord character jyutping tone input_tone_group;
         final := final;
         system := system;
         tone_filter := tone_filter;
         rhymes := limited_rhymes;
         count := length limited_rhymes;
         total_count := total_count;
         target_tone := target_tone;
         target_group := target_group |}
  end.

End WithToneTables.

Definition get_available_finals (rhyme_data : RhymeData) : list string :=
  sorted (dict_keys rhyme_data).

Definition get_characters_by_final (rhyme_data : RhymeData)
    (final : string) (tone_filter : option Z) (limit : Z) : final_result :=
  if negb (dict_contains rhyme_data final) then
    FinalNotFound
      ("Final '" +:+ final +:+ "' not found in rhyme database")
      (get_available_finals rhyme_data)
  else
    let all_chars :=
      default [] (data ← dict_get rhyme_data final; characters data) in
    let filtered :=
      match tone_filter with
      | Some tone_filter => filter (λ c, e_tone c = tone_filter) all_chars
      | None => all_chars
      end in
    FinalFound final tone_filter (slice_to filtered limit)
      (length (slice_to filtered limit)) (length filtered).

(** The [rhymes] key, which both shapes of a result carry. *)
Definition rhymes_of (r : find_result) : list char_record :=
  match r with
  | NotFound _ _ rhymes => rhymes
  | Found result => rhymes result
  end.

End RhymeLookup.

(** ** The classifier as the specification tabulates it *)

Module Spec.

(** Scheme A ("1056"): {1,2,7} high, {4} low falling, {3,5,8} mid,
    {6,9} low; anything else is unknown. *)
Definition scheme_A (tone : Z) : string :=
  if bool_decide (tone ∈ [1; 2; 7]) then "1"
  else if bool_decide (tone = 4) then "0"
  else if bool_decide (tone ∈ [3; 5; 8]) then "5"
  else if bool_decide (tone ∈ [6; 9]) then "6"
  else "?".

(** Scheme B ("0243"), on the same groups. *)
Definition scheme_B (tone : Z) : string :=
  if bool_decide (tone ∈ [1; 2; 7]) then "3"
  else if bool_decide (tone = 4) then "0"
  else if bool_decide (tone ∈ [3; 5; 8]) then "2"
  else if bool_decide (tone ∈ [6; 9]) then "4"
  else "?".

(** What the syllable parser makes of a syllable: a tone ([Some]) or no
    tone ([None]). *)
Definition yields (jyutping : option string) (tone : option Z) : Prop :=
  ToneMapper.extract_tone_from_jyutping jyutping = Returns tone.

(** The label of a tone, when there is one. *)
Definition label (system : string) (tone : option Z) : option string :=
  (λ t, ToneMapper.map_tone t system) <$> tone.

(** The breakdown record of a pair whose syllable yields [tone]. *)
Definition breakdown_of (system : string) (pair : string * option string)
    (tone : option Z) : ToneMapper.breakdown_item :=
  ToneMapper.BreakdownItem pair.1 pair.2 tone (label system tone).

(** [c] appears in the readings of some final of the dataset. *)
Definition appears (rhyme_data : RhymeLookup.RhymeData) (c : string)
  : Prop :=
  ∃ final data e,
    (final, data) ∈ rhyme_data
    ∧ e ∈ default [] (RhymeLookup.characters data)
    ∧ RhymeLookup.e_char e = c.

(** The readings of [c] under one final, and in the whole dataset, in
    dataset order. *)
Definition readings_in (final : string) (entries : list RhymeLookup.entry)
    (c : string) : list RhymeLookup.reading :=
  (λ e, (final, RhymeLookup.e_jyutping e, RhymeLookup.e_tone e))
    <$> filter (λ e, RhymeLookup.e_char e = c) entries.

Definition readings_of (rhyme_data : RhymeLookup.RhymeData) (c : string)
  : list RhymeLookup.reading :=
  concat
    ((λ '(final, data),
        readings_in final (default [] (RhymeLookup.characters data)) c)
       <$> rhyme_data).

(** An index cell after more readings have been appended to it. *)
Definition extend (cell : option (list RhymeLookup.reading))
    (more : list RhymeLookup.reading) : option (list RhymeLookup.reading) :=
  match more with
  | [] => cell
  | _ => Some (default [] cell ++ more)
  end.

Section Query.
(** The tone classifier of the query engine. *)
Variable classify : Z → string → string.

(** A returned rhyme entry: character, syllable, tone and tone group. *)
Definition rhyme_record (system : string) (e : RhymeLookup.entry)
  : RhymeLookup.char_record :=
  RhymeLookup.CharRecord (RhymeLookup.e_char e) (RhymeLookup.e_jyutping e)
    (RhymeLookup.e_tone e) (classify (RhymeLookup.e_tone e) system).

(** The siblings, the input character excluded, that satisfy [P], as
    rhyme entries in dataset order. *)
Definition siblings_where (character system : string)
    (P : RhymeLookup.entry → Prop) `{!∀ e, Decision (P e)}
    (siblings : list RhymeLookup.entry) : list RhymeLookup.char_record :=
  rhyme_record system
    <$> filter (λ e, RhymeLookup.e_char e ≠ character ∧ P e) siblings.
End Query.

(** An entry passes the filter policy of a query: the first clause that
    applies decides. *)
Definition keeps (classify : Z → string → string)
    (tone_filter system : string) (tone : Z)
    (target_tone : option Z) (target_group : option string)
    (e : RhymeLookup.entry) : Prop :=
  match target_tone, target_group with
  | Some target_tone, _ => RhymeLookup.e_tone e = target_tone
  | None, Some target_group =>
    classify (RhymeLookup.e_tone e) system = target_group
  | None, None =>
    if decide (tone_filter = "same") then RhymeLookup.e_tone e = tone
    else if decide (tone_filter = "group")
    then classify (RhymeLookup.e_tone e) system = classify tone system
    else True
  end.

#[global] Instance keeps_dec classify tone_filter system tone target_tone
  target_group e :
  Decision (keeps classify tone_filter system tone target_tone target_group e).
Proof.
  unfold keeps. destruct target_tone, target_group; try apply _.
  destruct (decide (tone_filter = "same")); [apply _|].
  destruct (decide (tone_filter = "group")); apply _.
Defined.

(** A query answers with the filtered set [filtered]: [total_count] is
    its size, [rhymes] is what the limit leaves of it and [count] the
    size of that. *)
Definition answers (r : RhymeLookup.find_result) (limit : Z)
    (filtered : list RhymeLookup.char_record) : Prop :=
  ∃ res,
    r = RhymeLookup.Found res
    ∧ RhymeLookup.total_count res = length filtered
    ∧ RhymeLookup.rhymes res = slice_to filtered limit
    ∧ RhymeLookup.count res = length (RhymeLookup.rhymes res).

End Spec.

(** ** Sample data *)

Module Sample.

(** What the romanizer returns for 你好. *)
Definition nei_hou : list (string * option string) :=
  [("你", Some "nei5"); ("好", Some "hou2")].

(** The readings of the final "oi": 愛, 外 and 改. *)
Definition oi : list RhymeLookup.entry :=
  [ RhymeLookup.Entry "愛" "oi3" 3;
    RhymeLookup.Entry "外" "ngoi6" 6;
    RhymeLookup.Entry "改" "goi2" 2 ].

(** A dataset with the finals "oi" and "aa". *)
Definition oi_aa : RhymeLookup.RhymeData :=
  [ ("oi", RhymeLookup.FinalData (Some oi));
    ("aa",
     RhymeLookup.FinalData
       (Some [ RhymeLookup.Entry "呀" "aa1" 1;
               RhymeLookup.Entry "亞" "aa3" 3 ])) ].

End Sample.

(** ** More built-ins *)

Module PyMore.

(** The truth value of an optional string: [None] and the empty string are
    false. *)
Definition truthy (s : option string) : bool :=
  match s with
  | Some s => bool_decide (s ≠ "")
  | None => false
  end.

(** [str(n)] of an integer, as an f-string formats it. *)
Definition str_of_int (n : Z) : string :=
  NilZero.string_of_int (Z.to_int n).

(** [d[k] = v]: the value of an existing key is replaced where it stands, a
    new key goes to the end. *)
Fixpoint dict_set {V} (d : list (string * V)) (k : string) (v : V)
  : list (string * V) :=
  match d with
  | [] => [(k, v)]
  | (k', v') :: rest =>
    if decide (k' = k) then (k, v) :: rest else (k', v') :: dict_set rest k v
  end.

End PyMore.

Export PyMore.

(** ** tinci_mcp/server.py and canmcp/server.py *)

Module Server.

Record jyutping_result : Type := JyutpingResult {
  text : string;
  jyutping : list (string * string);
  romanization : string;
}.

(** [get_jyutping], on the value [result] of
    [ToJyutping.get_jyutping_list(text)]: a list of pairs of a character
    and its syllable, [None] for a character without one. *)
Definition get_jyutping (text : string)
    (result : list (string * option string)) : jyutping_result :=
  let pairs :=
    (λ '(char, jyutping),
       (char, if truthy jyutping then default "" jyutping else ""))
      <$> result in
  let romanization_parts :=
    foldl
      (λ romanization_parts '(char, jyutping),
         if truthy jyutping
         then romanization_parts ++ [default "" jyutping]
         else romanization_parts)
      [] result in
  JyutpingResult text pairs (join " " romanization_parts).

(** The value of [get_tone_pattern]: the text and the keys of the
    analysis. *)
Record tone_pattern : Type := TonePattern {
  tp_text : string;
  tp_analysis : ToneMapper.analysis;
}.

(** [get_tone_pattern], on the romanizer's list for [text].  An omitted
    [system] is "0243". *)
Definition get_tone_pattern (text : string)
    (jyutping_list : list (string * option string)) (system : option string)
  : outcome tone_pattern :=
  analysis ← ToneMapper.analyze_tones jyutping_list (default "0243" system);
  Returns (TonePattern text analysis).

(** [get_rhyming_characters]: an omitted argument takes its default. *)
Definition get_rhyming_characters (TONE_TO_1056 TONE_TO_0243 : gmap Z string)
    (rhyme_data : RhymeLookup.RhymeData) (character : string)
    (tone_filter system : option string) (limit : option Z)
    (target_tone : option Z) (target_group : option string)
  : RhymeLookup.find_result :=
  RhymeLookup.find_rhyming_characters TONE_TO_1056 TONE_TO_0243 rhyme_data
    character (default "all" tone_filter) (default "0243" system)
    (default 50 limit) target_tone target_group.

End Server.

(** ** tinci_mcp/utils/scrape_rhymes.py *)

Module ScrapeRhymes.

Definition TONE_COLUMNS : list (list Z) :=
  [ [4];
    [6];
    [5; 3];
    [2; 1] ].

(** The tone of part [part_idx] of a cell: [tones[part_idx]] when there is
    one, else [tones[-1]]; [None] stands for the [IndexError] of an empty
    [tones]. *)
Definition part_tone (tones : list Z) (part_idx : nat) : option Z :=
  if bool_decide (part_idx < length tones)%nat then tones !! part_idx
  else last tones.

(** [f"{initial}{final}{tone}"] *)
Definition jyutping_of (initial final : string) (tone : Z) : string :=
  initial +:+ final +:+ str_of_int tone.

(** The entry appended for a character of a part. *)
Definition make_entry (initial final : string) (tone : Z) (char : string)
  : RhymeLookup.entry :=
  RhymeLookup.Entry char (jyutping_of initial final tone) tone.

(** [is_chinese_char], on [code = ord(char)]. *)
Definition is_chinese_char (code : Z) : bool :=
  bool_decide (0x4E00 ≤ code ≤ 0x9FFF)
  || bool_decide (0x3400 ≤ code ≤ 0x4DBF)
  || bool_decide (0x20000 ≤ code ≤ 0x2A6DF)
  || bool_decide (0xF900 ≤ code ≤ 0xFAFF)
  || bool_decide (0x2F800 ≤ code ≤ 0x2FA1F).

(** The value that [parse_rhyme_page] builds: a final maps to an object
    whose only key is ["characters"]. *)
Definition dataset := list (string * list RhymeLookup.entry).

(** The loop "Deduplicate while preserving order" over the entries of one
    table, on the set [seen] and on the list stored under the final. *)
Fixpoint dedup_loop (characters : list RhymeLookup.entry)
    (seen : gset (string * string)) (stored : list RhymeLookup.entry)
  : list RhymeLookup.entry :=
  match characters with
  | [] => stored
  | char_entry :: rest =>
    let key :=
      (RhymeLookup.e_char char_entry, RhymeLookup.e_jyutping char_entry) in
    if bool_decide (key ∉ seen)
    then dedup_loop rest ({[key]} ∪ seen) (stored ++ [char_entry])
    else dedup_loop rest seen stored
  end.

(** What [parse_rhyme_page] does with the entries [characters] that
    [parse_final_section] returned for a table of [current_final]. *)
Definition store_section (rhyme_data : dataset) (current_final : string)
    (characters : list RhymeLookup.entry) : dataset :=
  match characters with
  | [] => rhyme_data
  | _ =>
    let rhyme_data :=
      if dict_contains rhyme_data current_final then rhyme_data
      else dict_set rhyme_data current_final [] in
    dict_set rhyme_data current_final
      (dedup_loop characters ∅ (default [] (dict_get rhyme_data current_final)))
  end.

(** [parse_rhyme_page], on the tables whose first cell names a final, each
    with the entries parsed from it. *)
Definition collect (sections : list (string * list RhymeLookup.entry))
  : dataset :=
  foldl
    (λ rhyme_data '(current_final, characters),
       store_section rhyme_data current_final characters)
    [] sections.

(** The dataset as [load_rhyme_data] reads it back from the file that
    [main] writes. *)
Definition dumped (rhyme_data : dataset) : RhymeLookup.RhymeData :=
  (λ '(final, characters),
     (final, RhymeLookup.FinalData (Some characters))) <$> rhyme_data.

End ScrapeRhymes.

(** ** Notions used by the further properties *)

Module Notions.

(** The digits of a scheme, as characters. *)
Definition pattern_alphabet (system : string) : list ascii :=
  if bool_decide (system = "1056")
  then ["1"; "0"; "5"; "6"]%char
  else ["3"; "0"; "2"; "4"]%char.

(** The parser raises on the syllable. *)
Definition raises (jyutping : option string) : Prop :=
  ToneMapper.extract_tone_from_jyutping jyutping = Raises ValueError.

#[global] Instance raises_dec jyutping : Decision (raises jyutping).
Proof.
  unfold raises.
  destruct (ToneMapper.extract_tone_from_jyutping jyutping) as [t|[]].
  - right. discriminate.
  - left. reflexivity.
Defined.

(** The breakdown record carries a tone. *)
Definition has_tone (item : ToneMapper.breakdown_item) : Prop :=
  is_Some (ToneMapper.tone item).

(** The key by which the scraper tells entries apart. *)
Definition entry_key (e : RhymeLookup.entry) : string * string :=
  (RhymeLookup.e_char e, RhymeLookup.e_jyutping e).

End Notions.

(** ** More sample data *)

Module Sample2.

(** The answer to the query for 愛 on [Sample.oi_aa] with the defaults of
    the server and the tables of [canmcp/tone_mapper.py]. *)
Definition oi_result : RhymeLookup.rhyme_result :=
  {| RhymeLookup.input := RhymeLookup.CharRecord "愛" "oi3" 3 "2";
     RhymeLookup.final := "oi";
     RhymeLookup.system := "0243";
     RhymeLookup.tone_filter := "all";
     RhymeLookup.rhymes :=
       [ RhymeLookup.CharRecord "外" "ngoi6" 6 "4";
         RhymeLookup.CharRecord "改" "goi2" 2 "3" ];
     RhymeLookup.count := 2;
     RhymeLookup.total_count := 2;
     RhymeLookup.target_tone := None;
     RhymeLookup.target_group := None |}.

(** Two tables of the final "oi"; the second repeats 愛. *)
Definition oi_tables : list (string * list RhymeLookup.entry) :=
  [ ("oi", Sample.oi);
    ("oi", [RhymeLookup.Entry "愛" "oi3" 3; RhymeLookup.Entry "來" "loi4" 4]) ].

End Sample2.

(** ** Properties of the built-ins *)

Section PyFacts.
Context {A : Type}.
Implicit Types (l : list A) (stop : Z).

Lemma slice_to_nonneg l stop :
  0 ≤ stop → slice_to l stop = take (Z.to_nat stop) l.
Proof. intros ?. unfold slice_to. by rewrite bool_decide_eq_true_2. Qed.

Lemma slice_to_neg l stop :
  stop < 0 → slice_to l stop = take (length l - Z.to_nat (- stop)) l.
Proof.
  intros ?. unfold slice_to. rewrite bool_decide_eq_false_2 by lia.
  f_equal. lia.
Qed.

Lemma slice_to_prefix l stop : ∃ k, l = slice_to l stop ++ k.
Proof.
  unfold slice_to. case_bool_decide; eexists; symmetry; apply take_drop.
Qed.

Lemma slice_to_subseteq l stop : slice_to l stop ⊆ l.
Proof.
  destruct (slice_to_prefix l stop) as [k Hk]. intros x Hx.
  rewrite Hk. apply elem_of_app. by left.
Qed.
End PyFacts.

Lemma last_char_snoc s c : last_char (s +:+ String c EmptyString) = Some c.
Proof.
  induction s as [|a s IH]; [done|].
  change (String a s +:+ String c "") with (String a (s +:+ String c "")).
  simpl. rewrite IH. by destruct s.
Qed.

Lemma length_append (s1 s2 : string) :
  String.length (s1 +:+ s2) = (String.length s1 + String.length s2)%nat.
Proof.
  induction s1 as [|a s1 IH]; [done|].
  change (String a s1 +:+ s2) with (String a (s1 +:+ s2)).
  simpl. by rewrite IH.
Qed.

Lemma length_join_empty parts :
  String.length (join "" parts) = sum_list (String.length <$> parts).
Proof.
  unfold join. induction parts as [|x [|y parts] IH]; simpl in *.
  - done.
  - lia.
  - rewrite !length_append, IH. simpl. lia.
Qed.

(** ** The tone classifier *)

Lemma tone_in_range (tone : Z) :
  1 ≤ tone ≤ 9 → tone ∈ [1; 2; 3; 4; 5; 6; 7; 8; 9].
Proof.
  intros ?. rewrite !elem_of_cons, elem_of_nil. lia.
Qed.

Lemma tone_tables_outside (tone : Z) :
  ¬ (1 ≤ tone ≤ 9) →
  ToneMapper.TONE_TO_1056 !! tone = None
  ∧ ToneMapper.TONE_TO_0243 !! tone = None.
Proof.
  intros Hout.
  split; apply not_elem_of_list_to_map_1; simpl;
    rewrite !elem_of_cons, elem_of_nil; lia.
Qed.

Ltac each_tone H :=
  apply tone_in_range in H;
  repeat (apply elem_of_cons in H as [-> | H]); [..| by apply elem_of_nil in H].

Lemma map_tone_outside (tone : Z) (system : string) :
  ¬ (1 ≤ tone ≤ 9) → ToneMapper.map_tone tone system = "?".
Proof.
  intros [H1 H2]%tone_tables_outside. unfold ToneMapper.map_tone.
  case_bool_decide; [by rewrite H1 | by rewrite H2].
Qed.

Lemma map_tone_inside (tone : Z) (system : string) :
  1 ≤ tone ≤ 9 →
  String.length (ToneMapper.map_tone tone system) = 1%nat
  ∧ ToneMapper.map_tone tone system ≠ "?".
Proof.
  intros H. unfold ToneMapper.map_tone.
  case_bool_decide; each_tone H; by vm_compute.
Qed.

(** C2: the classifier is total; under scheme "1056" it labels tones 1, 2, 7
    with "1", tone 4 with "0", tones 3, 5, 8 with "5" and tones 6, 9 with
    "6"; under scheme "0243" it labels the same groups "3", "0", "2" and
    "4"; every integer outside 1-9 (0 and 10 among them) gets "?", and only
    those do.  [get_tone_group] of the rhyme lookup is the same function of
    the two tables. *)
Theorem map_tone_total_table (tone : Z) (system : ToneMapper.ToneSystem) :
  ToneMapper.map_tone tone "1056" = Spec.scheme_A tone
  ∧ ToneMapper.map_tone tone "0243" = Spec.scheme_B tone
  ∧ (ToneMapper.map_tone tone system = "?" ↔ ¬ (1 ≤ tone ≤ 9))
  ∧ ToneMapper.map_tone 0 system = "?"
  ∧ ToneMapper.map_tone 10 system = "?"
  ∧ RhymeLookup.get_tone_group ToneMapper.TONE_TO_1056
      ToneMapper.TONE_TO_0243 tone system
    = ToneMapper.map_tone tone system.
Proof.
  split_and!.
  - destruct (decide (1 ≤ tone ≤ 9)) as [H|H].
    + each_tone H; by vm_compute.
    + rewrite map_tone_outside by done. unfold Spec.scheme_A.
      rewrite !bool_decide_eq_false_2; [done|..];
        rewrite ?elem_of_cons, ?elem_of_nil; lia.
  - destruct (decide (1 ≤ tone ≤ 9)) as [H|H].
    + each_tone H; by vm_compute.
    + rewrite map_tone_outside by done. unfold Spec.scheme_B.
      rewrite !bool_decide_eq_false_2; [done|..];
        rewrite ?elem_of_cons, ?elem_of_nil; lia.
  - split.
    + intros Hq Hin. by apply (map_tone_inside tone system) in Hin as [_ ?].
    + apply map_tone_outside.
  - apply map_tone_outside. lia.
  - apply map_tone_outside. lia.
  - reflexivity.
Qed.

(** ** The syllable parser *)

Lemma extract_tone_last (s : string) (c : ascii) :
  last_char s = Some c →
  ToneMapper.extract_tone_from_jyutping (Some s) =
    if isdecimal c then
      Returns (if bool_decide (1 ≤ code c - 48 ≤ 9)
               then Some (code c - 48) else None)
    else if isdigit c then Raises ValueError
    else Returns None.
Proof.
  intros Hl. unfold ToneMapper.extract_tone_from_jyutping. rewrite Hl.
  unfold isdigit, int. destruct (isdecimal c); simpl.
  - by case_bool_decide.
  - by repeat case_bool_decide.
Qed.

Lemma extract_tone_empty :
  ToneMapper.extract_tone_from_jyutping None = Returns None
  ∧ ToneMapper.extract_tone_from_jyutping (Some "") = Returns None.
Proof. done. Qed.

Lemma last_char_None (s : string) : last_char s = None → s = "".
Proof.
  induction s as [|a s IH]; [done|]. simpl. destruct s; [done|].
  intros H. by apply IH in H.
Qed.

(** The parser returns a tone exactly for a syllable whose last character
    is one of the decimal digits 1 to 9, and the tone is its value. *)
Lemma extract_tone_Some_iff (jyutping : option string) (tone : Z) :
  ToneMapper.extract_tone_from_jyutping jyutping = Returns (Some tone)
  ↔ ∃ s c, jyutping = Some s ∧ last_char s = Some c
      ∧ 49 ≤ code c ≤ 57 ∧ tone = code c - 48.
Proof.
  split.
  - destruct jyutping as [s|]; [|done].
    destruct (last_char s) as [c|] eqn:Hl.
    + rewrite (extract_tone_last s c Hl). unfold isdecimal.
      repeat case_bool_decide; destruct (isdigit c); try done.
      all: intros [= <-]; exists s, c; repeat split; try done; lia.
    + apply last_char_None in Hl as ->. intros H. by vm_compute in H.
  - intros (s & c & -> & Hl & Hc & ->).
    rewrite (extract_tone_last s c Hl). unfold isdecimal.
    rewrite !bool_decide_eq_true_2 by lia. done.
Qed.

Lemma extract_tone_range (jyutping : option string) (tone : Z) :
  ToneMapper.extract_tone_from_jyutping jyutping = Returns (Some tone) →
  1 ≤ tone ≤ 9.
Proof. intros (s & c & _ & _ & ? & ->)%extract_tone_Some_iff. lia. Qed.

(** Without a superscript two, three or one at its end the parser returns:
    the tone of a final digit 1 to 9, and no tone in every other case. *)
Lemma extract_tone_returns (s : string) (c : ascii) :
  last_char s = Some c → code c ∉ [178; 179; 185] →
  ToneMapper.extract_tone_from_jyutping (Some s) =
    Returns (if bool_decide (49 ≤ code c ≤ 57)
             then Some (code c - 48) else None).
Proof.
  intros Hl Hc. rewrite (extract_tone_last s c Hl).
  rewrite !not_elem_of_cons in Hc. destruct Hc as (? & ? & ? & _).
  unfold isdigit, isdecimal.
  repeat case_bool_decide; simpl; try done; lia.
Qed.

Example extract_tone_jat1 :
  ToneMapper.extract_tone_from_jyutping (Some "jat1") = Returns (Some 1).
Proof. reflexivity. Qed.

Example extract_tone_nei5 :
  ToneMapper.extract_tone_from_jyutping (Some "nei5") = Returns (Some 5).
Proof. reflexivity. Qed.

Example extract_tone_abc :
  ToneMapper.extract_tone_from_jyutping (Some "abc") = Returns None.
Proof. reflexivity. Qed.

Example extract_tone_zero :
  ToneMapper.extract_tone_from_jyutping (Some "a0") = Returns None.
Proof. reflexivity. Qed.

(** Whatever precedes it, a final superscript two makes the parser raise. *)
Lemma extract_tone_superscript_suffix (s : string) :
  ToneMapper.extract_tone_from_jyutping
    (Some (s +:+ String "178" EmptyString))
  = Raises ValueError.
Proof. by rewrite (extract_tone_last _ _ (last_char_snoc s "178")). Qed.

(** C8: on a syllable that ends in the superscript two (U+00B2), which
    [isdigit] accepts and [int] rejects, the parser does not return "no
    tone": the [ValueError] of [int] leaves the function. *)
Theorem extract_tone_superscript_raises :
  ToneMapper.extract_tone_from_jyutping
    (Some (String "m" (String "178" EmptyString)))
  = Raises ValueError.
Proof. reflexivity. Qed.

(** ** The tone-pattern analyzer *)

Lemma analyze_loop_yields system (pairs : list (string * option string))
    tones breakdown pattern_chars :
  Forall2 (λ pair tone, Spec.yields pair.2 tone) pairs tones →
  ToneMapper.analyze_loop system pairs breakdown pattern_chars =
    Returns (breakdown ++ zip_with (Spec.breakdown_of system) pairs tones,
             pattern_chars ++ omap (Spec.label system) tones).
Proof.
  intros H. revert breakdown pattern_chars.
  induction H as [|[char jyutping] tone pairs tones Hy _ IH];
    intros breakdown pattern_chars; simpl.
  - by rewrite !app_nil_r.
  - unfold Spec.yields in Hy. simpl in Hy. rewrite Hy. simpl.
    destruct tone as [tone|]; simpl; rewrite IH; by rewrite <- !app_assoc.
Qed.

Lemma length_labels system (pairs : list (string * option string)) tones :
  Forall2 (λ pair tone, Spec.yields pair.2 tone) pairs tones →
  (sum_list (String.length <$> omap (Spec.label system) tones)
   ≤ length pairs)%nat.
Proof.
  induction 1 as [|pair tone pairs tones Hy _ IH]; simpl; [done|].
  destruct tone as [tone|]; simpl.
  - apply extract_tone_range in Hy.
    destruct (map_tone_inside tone system Hy) as [-> _].
    apply le_n_S. exact IH.
  - transitivity (length pairs); [exact IH | lia].
Qed.

Lemma mapped_breakdown system (pairs : list (string * option string)) tones :
  length pairs = length tones →
  omap ToneMapper.mapped (zip_with (Spec.breakdown_of system) pairs tones)
  = omap (Spec.label system) tones.
Proof.
  revert tones. induction pairs as [|pair pairs IH]; intros [|tone tones];
    simpl; try done.
  intros [= Hlen]. specialize (IH tones Hlen).
  destruct tone as [tone|]; simpl; [f_equal|]; exact IH.
Qed.

(** Where the parser returns on every syllable, a tone or no tone,
    [analyze_tones] returns one breakdown record per pair, in input order;
    the record of a pair with a tone carries the tone and its label, the
    record of a pair without one carries neither; [pattern] is the
    concatenation, in input order, of the labels of the pairs with a tone,
    and is no longer than the input. *)
Theorem analyze_tones_breakdown_and_pattern
    (pairs : list (string * option string)) (tones : list (option Z))
    (system : string) :
  Forall2 (λ pair tone, Spec.yields pair.2 tone) pairs tones →
  ∃ a, ToneMapper.analyze_tones pairs system = Returns a
    ∧ ToneMapper.system a = system
    ∧ ToneMapper.breakdown a = zip_with (Spec.breakdown_of system) pairs tones
    ∧ length (ToneMapper.breakdown a) = length pairs
    ∧ ToneMapper.pattern a = join "" (omap (Spec.label system) tones)
    ∧ ToneMapper.pattern a
      = join "" (omap ToneMapper.mapped (ToneMapper.breakdown a))
    ∧ (String.length (ToneMapper.pattern a) ≤ length pairs)%nat.
Proof.
  intros H. unfold ToneMapper.analyze_tones.
  rewrite (analyze_loop_yields _ _ _ _ _ H). simpl.
  pose proof (Forall2_length _ _ _ H) as Hlen.
  eexists. split; [reflexivity|]. simpl. split_and!; try done.
  - rewrite length_zip_with. lia.
  - by rewrite mapped_breakdown.
  - rewrite length_join_empty. by apply length_labels.
Qed.

(** The romanizer's output for 你好 under scheme "1056": pattern "51". *)
Lemma analyze_tones_nei5_hou2 :
  Forall2 (λ pair tone, Spec.yields pair.2 tone)
    Sample.nei_hou [Some 5; Some 2]
  ∧ ∃ a, ToneMapper.analyze_tones Sample.nei_hou "1056" = Returns a
    ∧ ToneMapper.system a = "1056"
    ∧ ToneMapper.breakdown a
      = zip_with (Spec.breakdown_of "1056") Sample.nei_hou [Some 5; Some 2]
    ∧ length (ToneMapper.breakdown a) = length Sample.nei_hou
    ∧ ToneMapper.pattern a
      = join "" (omap (Spec.label "1056") [Some 5; Some 2])
    ∧ ToneMapper.pattern a
      = join "" (omap ToneMapper.mapped (ToneMapper.breakdown a))
    ∧ (String.length (ToneMapper.pattern a) ≤ length Sample.nei_hou)%nat.
Proof.
  assert (Forall2 (λ pair tone, Spec.yields pair.2 tone)
            Sample.nei_hou [Some 5; Some 2]) as H.
  { repeat constructor. }
  split; [exact H|].
  exact (analyze_tones_breakdown_and_pattern _ _ "1056" H).
Defined.

Example pattern_nei5_hou2 :
  ∃ a,
    ToneMapper.analyze_tones Sample.nei_hou "1056" = Returns a
    ∧ ToneMapper.pattern a = "51".
Proof. eexists. split; reflexivity. Qed.

(** C7: on a list of two pairs whose second syllable ends in the
    superscript two (U+00B2), [analyze_tones] produces no breakdown record
    and no pattern: the [ValueError] that the parser raises on that syllable
    leaves the analyzer, where one record per pair is asked for. *)
Theorem analyze_tones_superscript_raises :
  ToneMapper.analyze_tones
    [("你", Some "nei5"); ("m", Some (String "m" (String "178" EmptyString)))]
    "1056"
  = Raises ValueError.
Proof. reflexivity. Qed.

(** ** The character index *)

Lemma extend_extend cell more1 more2 :
  Spec.extend (Spec.extend cell more1) more2 = Spec.extend cell (more1 ++ more2).
Proof.
  destruct more1 as [|r more1]; [done|].
  destruct more2 as [|r' more2]; simpl.
  - by rewrite app_nil_r.
  - by rewrite <- app_assoc.
Qed.

Lemma lookup_index_entry final (char_index : RhymeLookup.CharacterInfo) e c :
  RhymeLookup.index_entry final char_index e !! c
  = Spec.extend (char_index !! c) (Spec.readings_in final [e] c).
Proof.
  unfold RhymeLookup.index_entry, Spec.readings_in. cbv zeta.
  destruct (decide (RhymeLookup.e_char e = c)) as [<-|Hne].
  - rewrite filter_cons_True by done. rewrite lookup_alter_eq. simpl.
    case_bool_decide as Hc.
    + rewrite lookup_insert_eq, Hc. done.
    + destruct (char_index !! RhymeLookup.e_char e); done.
  - rewrite filter_cons_False by done. rewrite lookup_alter_ne by done.
    simpl. case_bool_decide; [|done]. by rewrite lookup_insert_ne.
Qed.

Lemma lookup_index_entries final entries :
  ∀ (char_index : RhymeLookup.CharacterInfo) c,
    foldl (RhymeLookup.index_entry final) char_index entries !! c
    = Spec.extend (char_index !! c) (Spec.readings_in final entries c).
Proof.
  induction entries as [|e entries IH]; intros char_index c; [done|].
  simpl. rewrite IH, lookup_index_entry, extend_extend. f_equal.
  unfold Spec.readings_in. rewrite <- fmap_app, <- filter_app. done.
Qed.

Lemma lookup_index_from (rhyme_data : RhymeLookup.RhymeData) :
  ∀ (char_index : RhymeLookup.CharacterInfo) c,
    foldl
      (λ char_index '(final, data),
         foldl (RhymeLookup.index_entry final) char_index
           (default [] (RhymeLookup.characters data)))
      char_index rhyme_data !! c
    = Spec.extend (char_index !! c) (Spec.readings_of rhyme_data c).
Proof.
  induction rhyme_data as [|[final data] rhyme_data IH];
    intros char_index c; [done|].
  simpl. rewrite IH, lookup_index_entries, extend_extend. done.
Qed.

(** The cell of [c] holds the readings of [c] in dataset order, and there is
    no cell when there is no reading. *)
Lemma lookup_character_index rhyme_data c :
  RhymeLookup.build_character_index rhyme_data !! c
  = Spec.extend None (Spec.readings_of rhyme_data c).
Proof.
  unfold RhymeLookup.build_character_index.
  by rewrite lookup_index_from, lookup_empty.
Qed.

Lemma appears_readings rhyme_data c :
  Spec.appears rhyme_data c ↔ Spec.readings_of rhyme_data c ≠ [].
Proof.
  unfold Spec.appears, Spec.readings_of. split.
  - intros (final & data & e & Hd & He & Hc) Hnil.
    apply concat_nil_Forall in Hnil. rewrite Forall_fmap, Forall_forall in Hnil.
    specialize (Hnil _ Hd). simpl in Hnil. unfold Spec.readings_in in Hnil.
    apply fmap_nil_inv in Hnil.
    by pose proof (filter_nil_not_elem_of _ _ e Hnil Hc).
  - intros Hne.
    induction rhyme_data as [|[final data] rhyme_data IH]; [done|].
    simpl in Hne.
    destruct (Spec.readings_in final
                (default [] (RhymeLookup.characters data)) c)
      as [|r rs] eqn:Hr.
    + destruct (IH Hne) as (final' & data' & e & Hd & He).
      exists final', data', e. split; [by right|done].
    + unfold Spec.readings_in in Hr.
      destruct (filter (λ e, RhymeLookup.e_char e = c)
                  (default [] (RhymeLookup.characters data)))
        as [|e es] eqn:Hf; [done|].
      assert (e ∈ filter (λ e, RhymeLookup.e_char e = c)
                    (default [] (RhymeLookup.characters data))) as Hin.
      { rewrite Hf. by left. }
      apply list_elem_of_filter in Hin as [Hc Hin].
      exists final, data, e. split; [by left|done].
Qed.

(** C9: the index maps [c] to a non-empty list of readings exactly when [c]
    appears in the readings of some final of the dataset; no cell of the
    index is an empty list; the cell of [c] lists its readings in dataset
    order; and the lookup of a character outside the dataset returns
    [None], the normal "not found" value. *)
Theorem character_index_nonempty_iff_appears
    (rhyme_data : RhymeLookup.RhymeData) (c : string) :
  ((∃ readings,
      RhymeLookup.build_character_index rhyme_data !! c = Some readings
      ∧ readings ≠ [])
   ↔ Spec.appears rhyme_data c)
  ∧ RhymeLookup.build_character_index rhyme_data !! c ≠ Some []
  ∧ (Spec.appears rhyme_data c
     ↔ RhymeLookup.get_character_info rhyme_data c
       = Some (Spec.readings_of rhyme_data c))
  ∧ (¬ Spec.appears rhyme_data c
     ↔ RhymeLookup.get_character_info rhyme_data c = None).
Proof.
  unfold RhymeLookup.get_character_info.
  rewrite lookup_character_index, appears_readings.
  destruct (Spec.readings_of rhyme_data c) as [|r rs]; simpl.
  - split_and!; try done.
    + split; [by intros (? & ? & ?)|done].
    + split; [done|]. intros _ H. by apply H.
  - split_and!; try done.
    + split; [done|]. intros _. by eexists.
    + split; [|done]. intros H. by destruct H.
Qed.

(** ** The rhyme query engine *)

Section RhymeFacts.

Context (TONE_TO_1056 TONE_TO_0243 : gmap Z string).

Local Abbreviation get_tone_group :=
  (RhymeLookup.get_tone_group TONE_TO_1056 TONE_TO_0243).
Local Abbreviation find_rhyming_characters :=
  (RhymeLookup.find_rhyming_characters TONE_TO_1056 TONE_TO_0243).
Local Abbreviation siblings_where := (Spec.siblings_where get_tone_group).
Local Abbreviation keeps := (Spec.keeps get_tone_group).

Implicit Types (rhyme_data : RhymeLookup.RhymeData).
Implicit Types (character tone_filter system final jyutping : string).
Implicit Types (limit tone : Z) (target_tone : option Z).
Implicit Types (target_group : option string).

(** The loop appends, in dataset order, the records of the entries that are
    not the input character and pass the policy. *)
Lemma filter_loop_keeps character tone_filter system tone target_tone
    target_group all_rhymes :
  ∀ filtered_rhymes,
    RhymeLookup.filter_loop TONE_TO_1056 TONE_TO_0243 character tone_filter
      system tone (get_tone_group tone system) target_tone target_group
      all_rhymes filtered_rhymes
    = filtered_rhymes
      ++ siblings_where character system
           (keeps tone_filter system tone target_tone target_group)
           all_rhymes.
Proof.
  unfold Spec.siblings_where.
  induction all_rhymes as [|e all_rhymes IH]; intros acc; simpl.
  { by rewrite app_nil_r. }
  rewrite filter_cons. case_bool_decide as Hc.
  { rewrite decide_False by tauto. apply IH. }
  unfold Spec.keeps at 1.
  destruct target_tone as [tt|], target_group as [tg|];
    repeat (case_bool_decide || case_decide);
    rewrite IH; simpl; rewrite <- ?app_assoc; try done; tauto.
Qed.

Lemma find_rhyming_characters_found rhyme_data character tone_filter system
    limit target_tone target_group final jyutping tone others :
  RhymeLookup.get_character_info rhyme_data character
    = Some ((final, jyutping, tone) :: others) →
  Spec.answers
    (find_rhyming_characters rhyme_data character tone_filter system limit
       target_tone target_group)
    limit
    (siblings_where character system
       (keeps tone_filter system tone target_tone target_group)
       (RhymeLookup.all_rhymes_of rhyme_data final)).
Proof.
  intros Hinfo. unfold RhymeLookup.find_rhyming_characters. rewrite Hinfo.
  unfold RhymeLookup.filtered_rhymes_of. rewrite filter_loop_keeps. simpl.
  eexists. split; [reflexivity|]. done.
Qed.

Lemma siblings_where_iff character system (P Q : RhymeLookup.entry → Prop)
    `{!∀ e, Decision (P e), !∀ e, Decision (Q e)} siblings :
  (∀ e, P e ↔ Q e) →
  siblings_where character system P siblings
  = siblings_where character system Q siblings.
Proof.
  intros HPQ. unfold Spec.siblings_where. f_equal.
  apply list_filter_iff. intros e. by rewrite HPQ.
Qed.

(** C1: the policy is a priority chain.  With [target_tone] given, the
    filtered set is the siblings other than the input character whose tone
    is [target_tone], whatever [tone_filter] and [target_group] are;
    otherwise, with [target_group] given, those whose group under the scheme
    is [target_group], whatever [tone_filter] is; otherwise "same" keeps the
    tone of the input's first reading, "group" keeps its group and "all"
    keeps every sibling. *)
Theorem tone_filter_priority rhyme_data character system limit final
    jyutping tone others :
  RhymeLookup.get_character_info rhyme_data character
    = Some ((final, jyutping, tone) :: others) →
  (∀ (wanted_tone : Z) tone_filter target_group,
     Spec.answers
       (find_rhyming_characters rhyme_data character tone_filter system
          limit (Some wanted_tone) target_group)
       limit
       (siblings_where character system
          (λ e, RhymeLookup.e_tone e = wanted_tone)
          (RhymeLookup.all_rhymes_of rhyme_data final)))
  ∧ (∀ (wanted_group : string) tone_filter,
       Spec.answers
         (find_rhyming_characters rhyme_data character tone_filter system
            limit None (Some wanted_group))
         limit
         (siblings_where character system
            (λ e, get_tone_group (RhymeLookup.e_tone e) system = wanted_group)
            (RhymeLookup.all_rhymes_of rhyme_data final)))
  ∧ Spec.answers
      (find_rhyming_characters rhyme_data character "same" system limit
         None None)
      limit
      (siblings_where character system (λ e, RhymeLookup.e_tone e = tone)
         (RhymeLookup.all_rhymes_of rhyme_data final))
  ∧ Spec.answers
      (find_rhyming_characters rhyme_data character "group" system limit
         None None)
      limit
      (siblings_where character system
         (λ e, get_tone_group (RhymeLookup.e_tone e) system
               = get_tone_group tone system)
         (RhymeLookup.all_rhymes_of rhyme_data final))
  ∧ Spec.answers
      (find_rhyming_characters rhyme_data character "all" system limit
         None None)
      limit
      (siblings_where character system (λ _, True)
         (RhymeLookup.all_rhymes_of rhyme_data final)).
Proof.
  intros Hinfo.
  pose proof (λ tone_filter target_tone target_group,
    find_rhyming_characters_found rhyme_data character tone_filter system
      limit target_tone target_group final jyutping tone others Hinfo) as H.
  split_and!.
  - intros wanted_tone tone_filter target_group.
    specialize (H tone_filter (Some wanted_tone) target_group).
    erewrite siblings_where_iff in H; [exact H|done].
  - intros wanted_group tone_filter.
    specialize (H tone_filter None (Some wanted_group)).
    erewrite siblings_where_iff in H; [exact H|done].
  - specialize (H "same" None None).
    erewrite siblings_where_iff in H; [exact H|done].
  - specialize (H "group" None None).
    erewrite siblings_where_iff in H; [exact H|done].
  - specialize (H "all" None None).
    erewrite siblings_where_iff in H; [exact H|done].
Qed.

(** *** The limit *)

(** With a limit that is not negative, [rhymes] is the first [limit]
    entries of the filtered set and [count] is the smaller of [total_count]
    and [limit]. *)
Lemma find_rhymes_limit_nonneg rhyme_data character tone_filter system
    limit target_tone target_group final jyutping tone others :
  0 ≤ limit →
  RhymeLookup.get_character_info rhyme_data character
    = Some ((final, jyutping, tone) :: others) →
  ∃ res,
    find_rhyming_characters rhyme_data character tone_filter system limit
      target_tone target_group = RhymeLookup.Found res
    ∧ RhymeLookup.total_count res
      = length
          (siblings_where character system
             (keeps tone_filter system tone target_tone target_group)
             (RhymeLookup.all_rhymes_of rhyme_data final))
    ∧ RhymeLookup.rhymes res
      = take (Z.to_nat limit)
          (siblings_where character system
             (keeps tone_filter system tone target_tone target_group)
             (RhymeLookup.all_rhymes_of rhyme_data final))
    ∧ RhymeLookup.count res = length (RhymeLookup.rhymes res)
    ∧ Z.of_nat (RhymeLookup.count res)
      = Z.min (Z.of_nat (RhymeLookup.total_count res)) limit.
Proof.
  intros Hlimit Hinfo.
  destruct (find_rhyming_characters_found rhyme_data character tone_filter
              system limit target_tone target_group final jyutping tone
              others Hinfo) as (res & Hres & Htotal & Hrhymes & Hcount).
  exists res. rewrite slice_to_nonneg in Hrhymes by done.
  split_and!; try done.
  rewrite Hcount, Hrhymes, Htotal, length_take. lia.
Qed.

(** C3: on the sample dataset the query for 愛 with [limit = -1] does not
    return an empty list: of the two filtered entries it returns the first,
    with [count = 1] and [total_count = 2]. *)
Theorem find_rhymes_negative_limit_not_empty :
  ∃ res,
    find_rhyming_characters Sample.oi_aa "愛" "all" "0243" (-1) None None
    = RhymeLookup.Found res
    ∧ RhymeLookup.character <$> RhymeLookup.rhymes res = ["外"]
    ∧ RhymeLookup.count res = 1%nat
    ∧ RhymeLookup.total_count res = 2%nat.
Proof. eexists. split; [reflexivity|]. by vm_compute. Qed.

(** *** Self exclusion and the unknown character *)

(** C4: whatever the dataset, the mode, the scheme, the limit and the
    targets, no entry of [rhymes] has the input character. *)
Theorem no_self_rhyme rhyme_data character tone_filter system limit
    target_tone target_group :
  Forall (λ r, RhymeLookup.character r ≠ character)
    (RhymeLookup.rhymes_of
       (find_rhyming_characters rhyme_data character tone_filter system
          limit target_tone target_group)).
Proof.
  destruct (RhymeLookup.get_character_info rhyme_data character)
    as [[|[[final jyutping] tone] others]|] eqn:Hinfo.
  - unfold RhymeLookup.find_rhyming_characters. rewrite Hinfo. constructor.
  - destruct (find_rhyming_characters_found rhyme_data character tone_filter
                system limit target_tone target_group final jyutping tone
                others Hinfo) as (res & -> & _ & Hrhymes & _).
    simpl. rewrite Hrhymes. apply Forall_forall. intros r Hr.
    apply slice_to_subseteq in Hr. unfold Spec.siblings_where in Hr.
    apply list_elem_of_fmap in Hr as (e & -> & He).
    apply list_elem_of_filter in He as [[Hne _] _]. exact Hne.
  - unfold RhymeLookup.find_rhyming_characters. rewrite Hinfo. constructor.
Qed.

(** C5: for a character that the index does not hold the query returns the
    error shape: an error message, the input character and no rhymes. *)
Theorem character_not_found rhyme_data character tone_filter system limit
    target_tone target_group :
  RhymeLookup.build_character_index rhyme_data !! character = None →
  find_rhyming_characters rhyme_data character tone_filter system limit
    target_tone target_group
  = RhymeLookup.NotFound
      ("Character '" +:+ character +:+ "' not found in rhyme database")
      character [].
Proof.
  intros Hnone. unfold RhymeLookup.find_rhyming_characters,
    RhymeLookup.get_character_info. by rewrite Hnone.
Qed.

End RhymeFacts.

(** ** Lookup by final *)

Lemma slice_to_neg_drops {A} (l : list A) (stop : Z) :
  stop < 0 →
  ∃ removed,
    l = slice_to l stop ++ removed
    ∧ length removed = Nat.min (Z.to_nat (- stop)) (length l).
Proof.
  intros Hneg. rewrite slice_to_neg by done.
  exists (drop (length l - Z.to_nat (- stop)) l). split.
  - by rewrite take_drop.
  - rewrite length_drop. lia.
Qed.

Lemma dict_get_keys {V} (d : list (string * V)) k v :
  dict_get d k = Some v → k ∈ dict_keys d.
Proof.
  unfold dict_keys. induction d as [|[k' v'] d IH]; simpl; [done|].
  case_decide as Hk; [subst; left|right; auto].
Qed.

Lemma dict_keys_get {V} (d : list (string * V)) k :
  k ∈ dict_keys d → ∃ v, dict_get d k = Some v.
Proof.
  unfold dict_keys. induction d as [|[k' v'] d IH]; simpl.
  - by intros ?%elem_of_nil.
  - intros [->|Hin]%elem_of_cons.
    + rewrite decide_True by done. by eexists.
    + case_decide; [by eexists|auto].
Qed.

(** The entries that [get_characters_by_final] filters for a final that maps
    to [data]. *)
Lemma get_characters_by_final_found rhyme_data final tone_filter limit data :
  dict_get rhyme_data final = Some data →
  RhymeLookup.get_characters_by_final rhyme_data final tone_filter limit
  = let all_chars := default [] (RhymeLookup.characters data) in
    let filtered :=
      match tone_filter with
      | Some tone => filter (λ c, RhymeLookup.e_tone c = tone) all_chars
      | None => all_chars
      end in
    RhymeLookup.FinalFound final tone_filter (slice_to filtered limit)
      (length (slice_to filtered limit)) (length filtered).
Proof.
  intros Hget. unfold RhymeLookup.get_characters_by_final, dict_contains.
  rewrite bool_decide_eq_true_2 by (by eapply dict_get_keys).
  simpl. rewrite Hget. simpl. by destruct data as [[?|]].
Qed.

(** C10: with a strictly negative limit both lookups return the filtered
    list without its last [-limit] entries (all of it is removed when it has
    no more than that); [count] is the length of what is returned and
    [total_count] the length of the filtered list. *)
Theorem negative_limit_drops_tail (TONE_TO_1056 TONE_TO_0243 : gmap Z string)
    (rhyme_data : RhymeLookup.RhymeData) (limit : Z) :
  limit < 0 →
  (∀ character tone_filter system target_tone target_group final jyutping
     tone others,
     RhymeLookup.get_character_info rhyme_data character
       = Some ((final, jyutping, tone) :: others) →
     ∃ res removed,
       RhymeLookup.find_rhyming_characters TONE_TO_1056 TONE_TO_0243
         rhyme_data character tone_filter system limit target_tone
         target_group = RhymeLookup.Found res
       ∧ Spec.siblings_where
           (RhymeLookup.get_tone_group TONE_TO_1056 TONE_TO_0243)
           character system
           (Spec.keeps (RhymeLookup.get_tone_group TONE_TO_1056 TONE_TO_0243)
              tone_filter system tone target_tone target_group)
           (RhymeLookup.all_rhymes_of rhyme_data final)
         = RhymeLookup.rhymes res ++ removed
       ∧ length removed
         = Nat.min (Z.to_nat (- limit)) (RhymeLookup.total_count res)
       ∧ RhymeLookup.count res = length (RhymeLookup.rhymes res)
       ∧ RhymeLookup.total_count res
         = (length (RhymeLookup.rhymes res) + length removed)%nat
       ∧ ((Z.to_nat (- limit) < RhymeLookup.total_count res)%nat →
          RhymeLookup.rhymes res ≠ []))
  ∧ (∀ final tone_filter data,
       dict_get rhyme_data final = Some data →
       ∃ characters removed count total_count,
         RhymeLookup.get_characters_by_final rhyme_data final tone_filter
           limit
         = RhymeLookup.FinalFound final tone_filter characters count
             total_count
         ∧ match tone_filter with
           | Some tone =>
             filter (λ c, RhymeLookup.e_tone c = tone)
               (default [] (RhymeLookup.characters data))
           | None => default [] (RhymeLookup.characters data)
           end = characters ++ removed
         ∧ length removed = Nat.min (Z.to_nat (- limit)) total_count
         ∧ count = length characters
         ∧ total_count = (length characters + length removed)%nat
         ∧ ((Z.to_nat (- limit) < total_count)%nat → characters ≠ [])).
Proof.
  intros Hneg. split.
  - intros character tone_filter system target_tone target_group final
      jyutping tone others Hinfo.
    destruct (find_rhyming_characters_found TONE_TO_1056 TONE_TO_0243
                rhyme_data character tone_filter system limit target_tone
                target_group final jyutping tone others Hinfo)
      as (res & Hres & Htotal & Hrhymes & Hcount).
    destruct (slice_to_neg_drops
                (Spec.siblings_where
                   (RhymeLookup.get_tone_group TONE_TO_1056 TONE_TO_0243)
                   character system
                   (Spec.keeps
                      (RhymeLookup.get_tone_group TONE_TO_1056 TONE_TO_0243)
                      tone_filter system tone target_tone target_group)
                   (RhymeLookup.all_rhymes_of rhyme_data final))
                limit Hneg) as (removed & Hsplit & Hlen).
    exists res, removed.
    assert (RhymeLookup.total_count res
            = (length (RhymeLookup.rhymes res) + length removed)%nat) as Hsum.
    { rewrite Htotal, Hrhymes, <- length_app, <- Hsplit. done. }
    split_and!; [done| by rewrite Hrhymes | by rewrite Htotal |done|done|].
    intros Hlt Hnil. rewrite Htotal in Hsum, Hlt. rewrite Hnil in Hsum.
    simpl in Hsum. lia.
  - intros final tone_filter data Hget.
    rewrite (get_characters_by_final_found _ _ _ _ _ Hget). cbv zeta.
    set (filtered := match tone_filter with
                     | Some tone => _ | None => _ end).
    destruct (slice_to_neg_drops filtered limit Hneg)
      as (removed & Hsplit & Hlen).
    exists (slice_to filtered limit), removed. do 2 eexists.
    assert (length filtered
            = (length (slice_to filtered limit) + length removed)%nat)
      as Hsum.
    { rewrite <- length_app, <- Hsplit. done. }
    split; [reflexivity|]. split_and!; [done..|].
    intros Hlt Hnil. rewrite Hnil in Hsum. simpl in Hsum. lia.
Qed.

(** C6: for a final that the dataset does not hold, the lookup returns an
    error message and the list of the dataset's finals, which is sorted in
    the order of strings, without duplicates, a rearrangement of the keys of
    the dataset, and not empty unless the dataset is. *)
Theorem unknown_final_lists_finals (rhyme_data : RhymeLookup.RhymeData)
    (final : string) (tone_filter : option Z) (limit : Z) :
  dict_wf rhyme_data →
  final ∉ dict_keys rhyme_data →
  ∃ available_finals,
    RhymeLookup.get_characters_by_final rhyme_data final tone_filter limit
    = RhymeLookup.FinalNotFound
        ("Final '" +:+ final +:+ "' not found in rhyme database")
        available_finals
    ∧ available_finals = RhymeLookup.get_available_finals rhyme_data
    ∧ StronglySorted String.le available_finals
    ∧ NoDup available_finals
    ∧ available_finals ≡ₚ dict_keys rhyme_data
    ∧ (rhyme_data ≠ [] → available_finals ≠ []).
Proof.
  intros Hwf Hnotin. eexists. split.
  - unfold RhymeLookup.get_characters_by_final, dict_contains.
    by rewrite bool_decide_eq_false_2.
  - unfold RhymeLookup.get_available_finals, sorted.
    pose proof (merge_sort_Permutation String.le (dict_keys rhyme_data))
      as Hperm.
    split_and!; try done.
    + apply (StronglySorted_merge_sort _).
    + by rewrite Hperm.
    + intros Hne Hnil. rewrite Hnil in Hperm.
      symmetry in Hperm. apply Permutation_nil_r in Hperm.
      destruct rhyme_data; [done|discriminate].
Qed.

(** ** The theorems on the sample dataset *)

(** A query on the sample dataset: with [target_tone = 6] and the mode
    "group", only the tone decides. *)
Lemma tone_filter_priority_oi :
  RhymeLookup.get_character_info Sample.oi_aa "愛" = Some [("oi", "oi3", 3)]
  ∧ Spec.answers
      (RhymeLookup.find_rhyming_characters ToneMapper.TONE_TO_1056
         ToneMapper.TONE_TO_0243 Sample.oi_aa "愛" "group" "0243" 50
         (Some 6) (Some "3"))
      50
      (Spec.siblings_where
         (RhymeLookup.get_tone_group ToneMapper.TONE_TO_1056
            ToneMapper.TONE_TO_0243)
         "愛" "0243" (λ e, RhymeLookup.e_tone e = 6)
         (RhymeLookup.all_rhymes_of Sample.oi_aa "oi")).
Proof.
  assert (RhymeLookup.get_character_info Sample.oi_aa "愛"
          = Some [("oi", "oi3", 3)]) as H by (by vm_compute).
  split; [exact H|].
  exact (proj1 (tone_filter_priority ToneMapper.TONE_TO_1056
                  ToneMapper.TONE_TO_0243 Sample.oi_aa "愛" "0243" 50 "oi" "oi3" 3
                  [] H) 6 "group" (Some "3")).
Defined.

(** 字 is not in the sample dataset. *)
Lemma character_not_found_zi :
  RhymeLookup.build_character_index Sample.oi_aa !! "字" = None
  ∧ RhymeLookup.find_rhyming_characters ToneMapper.TONE_TO_1056
         ToneMapper.TONE_TO_0243 Sample.oi_aa "字" "all" "0243" 50 None None
    = RhymeLookup.NotFound
        ("Character '" +:+ "字" +:+ "' not found in rhyme database")
        "字" [].
Proof.
  assert (RhymeLookup.build_character_index Sample.oi_aa !! "字" = None)
    as H by (by vm_compute).
  split; [exact H|].
  exact (character_not_found ToneMapper.TONE_TO_1056
           ToneMapper.TONE_TO_0243 Sample.oi_aa "字" "all" "0243" 50 None None H).
Defined.


(** The final "oi" with [limit = -1]: the last of its three entries is
    removed. *)
Lemma negative_limit_drops_tail_oi :
  -1 < 0
  ∧ ∃ characters removed count total_count,
      RhymeLookup.get_characters_by_final Sample.oi_aa "oi" None (-1)
      = RhymeLookup.FinalFound "oi" None characters count total_count
      ∧ Sample.oi = characters ++ removed
      ∧ length removed = Nat.min (Z.to_nat (- -1)) total_count
      ∧ count = length characters
      ∧ total_count = (length characters + length removed)%nat
      ∧ ((Z.to_nat (- -1) < total_count)%nat → characters ≠ []).
Proof.
  assert (-1 < 0) as H by lia.
  split; [exact H|].
  exact (proj2 (negative_limit_drops_tail ToneMapper.TONE_TO_1056
                  ToneMapper.TONE_TO_0243 Sample.oi_aa (-1) H)
           "oi" None (RhymeLookup.FinalData (Some Sample.oi)) eq_refl).
Defined.

(** The final "zzz" is not in the sample dataset. *)
Lemma unknown_final_zzz :
  dict_wf Sample.oi_aa
  ∧ ("zzz" ∉ dict_keys Sample.oi_aa)
  ∧ ∃ available_finals,
      RhymeLookup.get_characters_by_final Sample.oi_aa "zzz" None 100
      = RhymeLookup.FinalNotFound
          ("Final '" +:+ "zzz" +:+ "' not found in rhyme database")
          available_finals
      ∧ available_finals = RhymeLookup.get_available_finals Sample.oi_aa
      ∧ StronglySorted String.le available_finals
      ∧ NoDup available_finals
      ∧ available_finals ≡ₚ dict_keys Sample.oi_aa
      ∧ (Sample.oi_aa ≠ [] → available_finals ≠ []).
Proof.
  assert (dict_wf Sample.oi_aa) as Hwf.
  { apply (bool_decide_unpack _). by vm_compute. }
  assert ("zzz" ∉ dict_keys Sample.oi_aa) as Hnotin.
  { apply (bool_decide_unpack _). by vm_compute. }
  split; [exact Hwf|]. split; [exact Hnotin|].
  exact (unknown_final_lists_finals Sample.oi_aa "zzz" None 100 Hwf Hnotin).
Defined.

Example available_finals_oi_aa :
  RhymeLookup.get_available_finals Sample.oi_aa = ["aa"; "oi"].
Proof. reflexivity. Qed.

(** ** Further properties of the tone mapper *)

Lemma get_tone_group_unknown (TONE_TO_1056 TONE_TO_0243 : gmap Z string)
    (tone : Z) (system : string) :
  system ≠ "1056" →
  RhymeLookup.get_tone_group TONE_TO_1056 TONE_TO_0243 tone system
  = RhymeLookup.get_tone_group TONE_TO_1056 TONE_TO_0243 tone "0243".
Proof.
  intros Hsys. unfold RhymeLookup.get_tone_group. by case_bool_decide.
Qed.

Lemma filter_loop_unknown (TONE_TO_1056 TONE_TO_0243 : gmap Z string)
    character tone_filter system tone input_tone_group target_tone
    target_group all_rhymes :
  system ≠ "1056" →
  ∀ filtered_rhymes,
    RhymeLookup.filter_loop TONE_TO_1056 TONE_TO_0243 character tone_filter
      system tone input_tone_group target_tone target_group all_rhymes
      filtered_rhymes
    = RhymeLookup.filter_loop TONE_TO_1056 TONE_TO_0243 character
        tone_filter "0243" tone input_tone_group target_tone target_group
        all_rhymes filtered_rhymes.
Proof.
  intros Hsys. induction all_rhymes as [|e all_rhymes IH]; intros acc; [done|].
  simpl. rewrite (get_tone_group_unknown _ _ _ system Hsys).
  by rewrite !IH.
Qed.

(** X1: a scheme name other than "1056" selects the table of "0243": the
    classifier labels every tone as under "0243", and a rhyme query
    returns the rhymes it returns under "0243". *)
Theorem unknown_system_is_0243 (TONE_TO_1056 TONE_TO_0243 : gmap Z string)
    (rhyme_data : RhymeLookup.RhymeData) (character tone_filter : string)
    (limit tone : Z) (target_tone : option Z) (target_group : option string)
    (system : string) :
  system ≠ "1056" →
  ToneMapper.map_tone tone system = ToneMapper.map_tone tone "0243"
  ∧ RhymeLookup.get_tone_group TONE_TO_1056 TONE_TO_0243 tone system
    = RhymeLookup.get_tone_group TONE_TO_1056 TONE_TO_0243 tone "0243"
  ∧ RhymeLookup.rhymes_of
      (RhymeLookup.find_rhyming_characters TONE_TO_1056 TONE_TO_0243
         rhyme_data character tone_filter system limit target_tone
         target_group)
    = RhymeLookup.rhymes_of
        (RhymeLookup.find_rhyming_characters TONE_TO_1056 TONE_TO_0243
           rhyme_data character tone_filter "0243" limit target_tone
           target_group).
Proof.
  intros Hsys. split.
  { unfold ToneMapper.map_tone. by case_bool_decide. }
  split; [by apply get_tone_group_unknown|].
  unfold RhymeLookup.find_rhyming_characters.
  destruct (RhymeLookup.get_character_info rhyme_data character)
    as [[|[[final jyutping] first_tone] others]|]; try done.
  simpl. unfold RhymeLookup.filtered_rhymes_of.
  rewrite (get_tone_group_unknown _ _ _ system Hsys).
  by rewrite filter_loop_unknown.
Qed.

Lemma unknown_system_is_0243_abcd :
  "abcd" ≠ "1056"
  ∧ ToneMapper.map_tone 3 "abcd" = ToneMapper.map_tone 3 "0243"
  ∧ RhymeLookup.get_tone_group ToneMapper.TONE_TO_1056
      ToneMapper.TONE_TO_0243 3 "abcd"
    = RhymeLookup.get_tone_group ToneMapper.TONE_TO_1056
        ToneMapper.TONE_TO_0243 3 "0243"
  ∧ RhymeLookup.rhymes_of
      (RhymeLookup.find_rhyming_characters ToneMapper.TONE_TO_1056
         ToneMapper.TONE_TO_0243 Sample.oi_aa "愛" "group" "abcd" 50 None
         None)
    = RhymeLookup.rhymes_of
        (RhymeLookup.find_rhyming_characters ToneMapper.TONE_TO_1056
           ToneMapper.TONE_TO_0243 Sample.oi_aa "愛" "group" "0243" 50
           None None).
Proof.
  assert ("abcd" ≠ "1056") as H by discriminate.
  split; [exact H|].
  exact (unknown_system_is_0243 ToneMapper.TONE_TO_1056
           ToneMapper.TONE_TO_0243 Sample.oi_aa "愛" "group" 50 3 None None
           "abcd" H).
Defined.

(** X2: the two schemes of [canmcp/tone_mapper.py] group the integers in the
    same way: two tones share a label under "1056" exactly when they share
    one under "0243". *)
Theorem schemes_group_alike (a b : Z) :
  ToneMapper.map_tone a "1056" = ToneMapper.map_tone b "1056"
  ↔ ToneMapper.map_tone a "0243" = ToneMapper.map_tone b "0243".
Proof.
  destruct (decide (1 ≤ a ≤ 9)) as [Ha|Ha], (decide (1 ≤ b ≤ 9)) as [Hb|Hb].
  - each_tone Ha; each_tone Hb; by vm_compute.
  - rewrite !(map_tone_outside b) by done.
    split; intros H; by apply (map_tone_inside a) in H.
  - rewrite !(map_tone_outside a) by done.
    split; intros H; symmetry in H; by apply (map_tone_inside b) in H.
  - by rewrite !map_tone_outside by done.
Qed.

Lemma last_char_app (s1 s2 : string) :
  s2 ≠ "" → last_char (s1 +:+ s2) = last_char s2.
Proof.
  intros Hne. induction s1 as [|a s1 IH]; [done|].
  change (String a s1 +:+ s2) with (String a (s1 +:+ s2)).
  simpl. rewrite IH.
  destruct (s1 +:+ s2) eqn:Happ; [|done].
  destruct s1; [simpl in Happ; by subst|done].
Qed.

(** X3: the parser looks at the end of the syllable only: what stands
    before a non-empty suffix does not change its result. *)
Theorem extract_tone_of_suffix (s1 s2 : string) :
  s2 ≠ "" →
  ToneMapper.extract_tone_from_jyutping (Some (s1 +:+ s2))
  = ToneMapper.extract_tone_from_jyutping (Some s2).
Proof.
  intros Hne. unfold ToneMapper.extract_tone_from_jyutping.
  by rewrite last_char_app.
Qed.

Lemma extract_tone_of_suffix_ngoi6 :
  "oi6" ≠ ""
  ∧ ToneMapper.extract_tone_from_jyutping (Some ("ng" +:+ "oi6"))
    = ToneMapper.extract_tone_from_jyutping (Some "oi6").
Proof.
  assert ("oi6" ≠ "") as H by discriminate.
  split; [exact H|]. exact (extract_tone_of_suffix "ng" "oi6" H).
Defined.

Lemma append_nonempty (s1 s2 : string) : s2 ≠ "" → s1 +:+ s2 ≠ "".
Proof. intros Hne. destruct s1; [done|discriminate]. Qed.

Lemma last_char_jyutping_of initial final tone :
  1 ≤ tone ≤ 9 →
  ∃ c, last_char (ScrapeRhymes.jyutping_of initial final tone) = Some c
       ∧ code c = 48 + tone.
Proof.
  intros H. unfold ScrapeRhymes.jyutping_of.
  each_tone H;
    match goal with
    | |- context [str_of_int ?n] =>
      let v := eval vm_compute in (str_of_int n) in
      change (str_of_int n) with v
    end;
    rewrite !last_char_app by (try apply append_nonempty; discriminate);
    eexists; (split; [reflexivity|by vm_compute]).
Qed.

(** X4: the syllable that the scraper writes for a tone from 1 to 9, the
    initial, the final and the decimal form of the tone, is read back by
    the parser as that tone. *)
Theorem syllable_round_trip (initial final : string) (tone : Z) :
  1 ≤ tone ≤ 9 →
  ToneMapper.extract_tone_from_jyutping
    (Some (ScrapeRhymes.jyutping_of initial final tone))
  = Returns (Some tone).
Proof.
  intros H. apply extract_tone_Some_iff.
  destruct (last_char_jyutping_of initial final tone H) as (c & Hc & Hcode).
  exists (ScrapeRhymes.jyutping_of initial final tone), c.
  repeat split; try done; lia.
Qed.

Lemma syllable_round_trip_ngoi6 :
  1 ≤ 6 ≤ 9
  ∧ ToneMapper.extract_tone_from_jyutping
      (Some (ScrapeRhymes.jyutping_of "ng" "oi" 6))
    = Returns (Some 6).
Proof.
  assert (1 ≤ 6 ≤ 9) as H by lia.
  split; [exact H|]. exact (syllable_round_trip "ng" "oi" 6 H).
Defined.

(** *** Errors and composition of the analyzer *)

Lemma analyze_loop_raises system (pairs : list (string * option string)) :
  Exists (λ pair, Notions.raises pair.2) pairs →
  ∀ breakdown pattern_chars,
    ToneMapper.analyze_loop system pairs breakdown pattern_chars
    = Raises ValueError.
Proof.
  induction pairs as [|[char jyutping] pairs IH]; intros Hex b p.
  { by apply Exists_nil in Hex. }
  simpl.
  destruct (ToneMapper.extract_tone_from_jyutping jyutping) as [t|[]] eqn:He;
    [|done].
  apply Exists_cons in Hex as [Hr|Hex].
  { unfold Notions.raises in Hr. simpl in Hr. congruence. }
  simpl. destruct t; by apply IH.
Qed.

Lemma yields_or_raises (pairs : list (string * option string)) :
  Exists (λ pair, Notions.raises pair.2) pairs
  ∨ ∃ tones, Forall2 (λ pair tone, Spec.yields pair.2 tone) pairs tones.
Proof.
  induction pairs as [|[char jyutping] pairs [IH|[tones IH]]].
  - right. exists []. constructor.
  - left. by right.
  - destruct (ToneMapper.extract_tone_from_jyutping jyutping) as [t|[]] eqn:He.
    + right. exists (t :: tones). by constructor.
    + left. by left.
Qed.

(** X5: the analyzer raises exactly when the parser raises on one of the
    syllables, and returns exactly when it raises on none. *)
Theorem analyze_tones_raises_iff (pairs : list (string * option string))
    (system : string) :
  (ToneMapper.analyze_tones pairs system = Raises ValueError
   ↔ Exists (λ pair, Notions.raises pair.2) pairs)
  ∧ ((∃ a, ToneMapper.analyze_tones pairs system = Returns a)
     ↔ Forall (λ pair, ¬ Notions.raises pair.2) pairs).
Proof.
  unfold ToneMapper.analyze_tones.
  destruct (yields_or_raises pairs) as [Hex|[tones Hy]].
  - rewrite (analyze_loop_raises system pairs Hex). simpl. split.
    + done.
    + split; [by intros [? ?]|].
      intros Hall. apply Exists_exists in Hex as (pair & Hin & Hr).
      rewrite Forall_forall in Hall. by destruct (Hall pair Hin).
  - assert (Forall (λ pair : string * option string,
                      ¬ Notions.raises pair.2) pairs) as Hall.
    { clear system. induction Hy as [|pair tone ? ? Hy]; constructor; [|done].
      unfold Notions.raises, Spec.yields in *. congruence. }
    rewrite (analyze_loop_yields system pairs tones [] [] Hy). simpl. split.
    + split; [done|]. intros Hex.
      apply Exists_exists in Hex as (pair & Hin & Hr).
      rewrite Forall_forall in Hall. by destruct (Hall pair Hin).
    + split; [done|]. intros _. by eexists.
Qed.

Lemma append_empty_r (s : string) : s +:+ "" = s.
Proof.
  induction s as [|a s IH]; [done|].
  change (String a s +:+ "") with (String a (s +:+ "")). by rewrite IH.
Qed.

Lemma append_assoc (s1 s2 s3 : string) :
  (s1 +:+ s2) +:+ s3 = s1 +:+ (s2 +:+ s3).
Proof.
  induction s1 as [|a s1 IH]; [done|].
  change (String a s1 +:+ s2) with (String a (s1 +:+ s2)).
  change (String a (s1 +:+ s2) +:+ s3) with (String a ((s1 +:+ s2) +:+ s3)).
  by rewrite IH.
Qed.

Lemma join_empty_cons (x : string) (parts : list string) :
  join "" (x :: parts) = x +:+ join "" parts.
Proof.
  unfold join. destruct parts as [|y parts]; simpl.
  - by rewrite append_empty_r.
  - done.
Qed.

Lemma join_empty_app (parts1 parts2 : list string) :
  join "" (parts1 ++ parts2) = join "" parts1 +:+ join "" parts2.
Proof.
  induction parts1 as [|x parts1 IH]; [done|].
  rewrite <- app_comm_cons, !join_empty_cons, IH. by rewrite append_assoc.
Qed.

Lemma analyze_tones_returns_inv (pairs : list (string * option string))
    (system : string) (a : ToneMapper.analysis) :
  ToneMapper.analyze_tones pairs system = Returns a →
  ∃ tones,
    Forall2 (λ pair tone, Spec.yields pair.2 tone) pairs tones
    ∧ a = ToneMapper.Analysis system
            (join "" (omap (Spec.label system) tones))
            (zip_with (Spec.breakdown_of system) pairs tones).
Proof.
  unfold ToneMapper.analyze_tones.
  destruct (yields_or_raises pairs) as [Hex|[tones Hy]].
  - by rewrite (analyze_loop_raises system pairs Hex).
  - rewrite (analyze_loop_yields system pairs tones [] [] Hy). simpl.
    intros [= <-]. by exists tones.
Qed.

(** X6: the analysis of a concatenation is the concatenation of the
    analyses: when the analyzer returns on two lists of pairs, it returns on
    their concatenation, with the two patterns and the two breakdowns
    appended. *)
Theorem analyze_tones_app (pairs1 pairs2 : list (string * option string))
    (system : string) (a1 a2 : ToneMapper.analysis) :
  ToneMapper.analyze_tones pairs1 system = Returns a1 →
  ToneMapper.analyze_tones pairs2 system = Returns a2 →
  ToneMapper.analyze_tones (pairs1 ++ pairs2) system
  = Returns
      (ToneMapper.Analysis system
         (ToneMapper.pattern a1 +:+ ToneMapper.pattern a2)
         (ToneMapper.breakdown a1 ++ ToneMapper.breakdown a2)).
Proof.
  intros (tones1 & Hy1 & ->)%analyze_tones_returns_inv
         (tones2 & Hy2 & ->)%analyze_tones_returns_inv.
  unfold ToneMapper.analyze_tones.
  rewrite (analyze_loop_yields system _ (tones1 ++ tones2) [] [])
    by (by apply Forall2_app).
  simpl. rewrite omap_app, join_empty_app.
  rewrite zip_with_app by (by eapply Forall2_length). done.
Qed.

Lemma analyze_tones_app_nei_hou :
  ToneMapper.analyze_tones [("你", Some "nei5")] "1056"
  = Returns
      (ToneMapper.Analysis "1056" "5"
         [ToneMapper.BreakdownItem "你" (Some "nei5") (Some 5) (Some "5")])
  ∧ ToneMapper.analyze_tones [("好", Some "hou2")] "1056"
    = Returns
        (ToneMapper.Analysis "1056" "1"
           [ToneMapper.BreakdownItem "好" (Some "hou2") (Some 2) (Some "1")])
  ∧ ToneMapper.analyze_tones ([("你", Some "nei5")] ++ [("好", Some "hou2")])
      "1056"
    = Returns
        (ToneMapper.Analysis "1056" ("5" +:+ "1")
           ([ToneMapper.BreakdownItem "你" (Some "nei5") (Some 5) (Some "5")]
            ++ [ToneMapper.BreakdownItem "好" (Some "hou2") (Some 2)
                  (Some "1")])).
Proof.
  split; [reflexivity|]. split; [reflexivity|].
  exact (analyze_tones_app [("你", Some "nei5")] [("好", Some "hou2")] "1056"
           _ _ eq_refl eq_refl).
Defined.

Lemma map_tone_alphabet (tone : Z) (system : string) :
  1 ≤ tone ≤ 9 →
  ∃ c, ToneMapper.map_tone tone system = String c EmptyString
       ∧ c ∈ Notions.pattern_alphabet system.
Proof.
  intros H. unfold ToneMapper.map_tone, Notions.pattern_alphabet.
  repeat case_bool_decide; try done; each_tone H; eexists;
    (split; [by vm_compute|]); rewrite !elem_of_cons; tauto.
Qed.

Lemma labels_alphabet system (pairs : list (string * option string)) tones :
  Forall2 (λ pair tone, Spec.yields pair.2 tone) pairs tones →
  Forall (λ c, c ∈ Notions.pattern_alphabet system)
    (list_ascii_of_string (join "" (omap (Spec.label system) tones)))
  ∧ String.length (join "" (omap (Spec.label system) tones))
    = length (filter Notions.has_tone
                (zip_with (Spec.breakdown_of system) pairs tones)).
Proof.
  induction 1 as [|pair tone pairs tones Hy _ [IH1 IH2]].
  { split; [constructor|done]. }
  destruct tone as [tone|].
  - apply extract_tone_range in Hy.
    destruct (map_tone_alphabet tone system Hy) as (c & Hc & Hin).
    change (omap (Spec.label system) (Some tone :: tones))
      with (ToneMapper.map_tone tone system
              :: omap (Spec.label system) tones).
    rewrite join_empty_cons, Hc.
    change (zip_with (Spec.breakdown_of system) (pair :: pairs)
              (Some tone :: tones))
      with (Spec.breakdown_of system pair (Some tone)
              :: zip_with (Spec.breakdown_of system) pairs tones).
    rewrite filter_cons_True by (by eexists).
    split; [by constructor|]. simpl. by rewrite <- IH2.
  - change (omap (Spec.label system) (None :: tones))
      with (omap (Spec.label system) tones).
    change (zip_with (Spec.breakdown_of system) (pair :: pairs)
              (None :: tones))
      with (Spec.breakdown_of system pair None
              :: zip_with (Spec.breakdown_of system) pairs tones).
    rewrite filter_cons_False; [done|].
    intros [? Hs]. discriminate Hs.
Qed.

(** X7: a pattern that the analyzer returns is made of the four digits of
    the scheme, so it holds no "?", and it has one character for each
    breakdown record that carries a tone. *)
Theorem pattern_alphabet_and_length (pairs : list (string * option string))
    (system : string) (a : ToneMapper.analysis) :
  ToneMapper.analyze_tones pairs system = Returns a →
  Forall (λ c, c ∈ Notions.pattern_alphabet system)
    (list_ascii_of_string (ToneMapper.pattern a))
  ∧ String.length (ToneMapper.pattern a)
    = length (filter Notions.has_tone (ToneMapper.breakdown a)).
Proof.
  intros (tones & Hy & ->)%analyze_tones_returns_inv. simpl.
  by apply labels_alphabet.
Qed.

Lemma pattern_alphabet_and_length_nei_hou :
  ToneMapper.analyze_tones (Sample.nei_hou ++ [("!", None)]) "1056"
  = Returns
      (ToneMapper.Analysis "1056" "51"
         [ ToneMapper.BreakdownItem "你" (Some "nei5") (Some 5) (Some "5");
           ToneMapper.BreakdownItem "好" (Some "hou2") (Some 2) (Some "1");
           ToneMapper.BreakdownItem "!" None None None ])
  ∧ Forall (λ c, c ∈ Notions.pattern_alphabet "1056")
      (list_ascii_of_string "51")
  ∧ String.length "51"
    = length
        (filter Notions.has_tone
           [ ToneMapper.BreakdownItem "你" (Some "nei5") (Some 5) (Some "5");
             ToneMapper.BreakdownItem "好" (Some "hou2") (Some 2) (Some "1");
             ToneMapper.BreakdownItem "!" None None None ]).
Proof.
  split; [reflexivity|].
  exact (pattern_alphabet_and_length (Sample.nei_hou ++ [("!", None)])
           "1056" _ eq_refl).
Defined.

(** ** Further properties of the rhyme lookup *)

Lemma readings_of_elem (rhyme_data : RhymeLookup.RhymeData) c final jyutping
    tone :
  (final, jyutping, tone) ∈ Spec.readings_of rhyme_data c →
  ∃ data,
    (final, data) ∈ rhyme_data
    ∧ RhymeLookup.Entry c jyutping tone
      ∈ default [] (RhymeLookup.characters data).
Proof.
  unfold Spec.readings_of.
  induction rhyme_data as [|[final' data'] rhyme_data IH]; simpl.
  { by intros ?%elem_of_nil. }
  intros [Hin|Hin]%elem_of_app.
  - unfold Spec.readings_in in Hin.
    apply list_elem_of_fmap in Hin as (e & [= -> -> ->] & He).
    apply list_elem_of_filter in He as [<- He].
    exists data'. split; [by left|]. by destruct e.
  - destruct (IH Hin) as (data & Hd & He). exists data. split; [by right|done].
Qed.

Lemma dict_get_elem {V} (d : list (string * V)) k v :
  dict_wf d → (k, v) ∈ d → dict_get d k = Some v.
Proof.
  unfold dict_wf, dict_keys. induction d as [|[k' v'] d IH]; simpl.
  { by intros _ ?%elem_of_nil. }
  intros [Hnotin Hnd]%NoDup_cons [[= -> ->]|Hin]%elem_of_cons.
  - by rewrite decide_True.
  - rewrite decide_False; [by apply IH|].
    intros ->. apply Hnotin. apply list_elem_of_fmap. by exists (k, v).
Qed.

Lemma elem_dict_keys {V} (d : list (string * V)) k v :
  (k, v) ∈ d → k ∈ dict_keys d.
Proof. intros Hin. apply list_elem_of_fmap. by exists (k, v). Qed.

(** X8: the index is sound: every reading it lists for a character is an
    entry of the dataset, stored under the final of the reading with the
    syllable and tone of the reading. *)
Theorem index_readings_in_dataset (rhyme_data : RhymeLookup.RhymeData)
    (c : string) (readings : list RhymeLookup.reading) :
  RhymeLookup.get_character_info rhyme_data c = Some readings →
  ∀ final jyutping tone,
    (final, jyutping, tone) ∈ readings →
    final ∈ dict_keys rhyme_data
    ∧ ∃ data,
        (final, data) ∈ rhyme_data
        ∧ RhymeLookup.Entry c jyutping tone
          ∈ default [] (RhymeLookup.characters data).
Proof.
  unfold RhymeLookup.get_character_info. rewrite lookup_character_index.
  intros Hcell final jyutping tone Hin.
  assert (readings = Spec.readings_of rhyme_data c) as ->.
  { destruct (Spec.readings_of rhyme_data c); simpl in Hcell; congruence. }
  destruct (readings_of_elem _ _ _ _ _ Hin) as (data & Hd & He).
  split; [by eapply elem_dict_keys|by exists data].
Qed.

Lemma index_readings_in_dataset_oi :
  RhymeLookup.get_character_info Sample.oi_aa "外" = Some [("oi", "ngoi6", 6)]
  ∧ ∀ final jyutping tone,
      (final, jyutping, tone) ∈ [("oi", "ngoi6", 6)] →
      final ∈ dict_keys Sample.oi_aa
      ∧ ∃ data,
          (final, data) ∈ Sample.oi_aa
          ∧ RhymeLookup.Entry "外" jyutping tone
            ∈ default [] (RhymeLookup.characters data).
Proof.
  assert (RhymeLookup.get_character_info Sample.oi_aa "外"
          = Some [("oi", "ngoi6", 6)]) as H by (by vm_compute).
  split; [exact H|].
  exact (index_readings_in_dataset Sample.oi_aa "外" _ H).
Defined.

Section RhymeMore.

Context (TONE_TO_1056 TONE_TO_0243 : gmap Z string).

Local Abbreviation get_tone_group :=
  (RhymeLookup.get_tone_group TONE_TO_1056 TONE_TO_0243).
Local Abbreviation find_rhyming_characters :=
  (RhymeLookup.find_rhyming_characters TONE_TO_1056 TONE_TO_0243).
Local Abbreviation siblings_where := (Spec.siblings_where get_tone_group).
Local Abbreviation keeps := (Spec.keeps get_tone_group).

Implicit Types (rhyme_data : RhymeLookup.RhymeData).
Implicit Types (character tone_filter system final jyutping : string).
Implicit Types (limit tone : Z) (target_tone : option Z).
Implicit Types (target_group : option string).

Lemma find_found_inv rhyme_data character tone_filter system limit
    target_tone target_group res :
  find_rhyming_characters rhyme_data character tone_filter system limit
    target_tone target_group = RhymeLookup.Found res →
  ∃ final jyutping tone others,
    RhymeLookup.get_character_info rhyme_data character
      = Some ((final, jyutping, tone) :: others)
    ∧ RhymeLookup.final res = final
    ∧ RhymeLookup.system res = system
    ∧ RhymeLookup.total_count res
      = length
          (siblings_where character system
             (keeps tone_filter system tone target_tone target_group)
             (RhymeLookup.all_rhymes_of rhyme_data final))
    ∧ RhymeLookup.rhymes res
      = slice_to
          (siblings_where character system
             (keeps tone_filter system tone target_tone target_group)
             (RhymeLookup.all_rhymes_of rhyme_data final))
          limit.
Proof.
  destruct (RhymeLookup.get_character_info rhyme_data character)
    as [[|[[final jyutping] tone] others]|] eqn:Hinfo;
    try (unfold RhymeLookup.find_rhyming_characters; by rewrite Hinfo).
  intros Hres.
  destruct (find_rhyming_characters_found TONE_TO_1056 TONE_TO_0243
              rhyme_data character tone_filter system limit target_tone
              target_group final jyutping tone others Hinfo)
    as (res' & Hres' & Htotal & Hrhymes & _).
  assert (res' = res) as -> by congruence.
  exists final, jyutping, tone, others. split; [done|].
  split_and!; try done;
    unfold RhymeLookup.find_rhyming_characters in Hres;
    rewrite Hinfo in Hres; by injection Hres as <-.
Qed.

Lemma elem_of_siblings_where character system (P : RhymeLookup.entry → Prop)
    `{!∀ e, Decision (P e)} siblings r :
  r ∈ siblings_where character system P siblings
  ↔ ∃ e, r = Spec.rhyme_record get_tone_group system e
         ∧ e ∈ siblings ∧ RhymeLookup.e_char e ≠ character ∧ P e.
Proof.
  unfold Spec.siblings_where. rewrite list_elem_of_fmap. split.
  - intros (e & -> & [[? ?] ?]%list_elem_of_filter). by exists e.
  - intros (e & -> & ? & ? & ?). exists e. split; [done|].
    by apply list_elem_of_filter.
Qed.

(** X9: every returned rhyme is an entry of the dataset stored under the
    final that the result names, with its syllable and tone, and its tone
    group is the group of its tone under the scheme of the query. *)
Theorem rhymes_share_the_final rhyme_data character tone_filter system limit
    target_tone target_group res :
  find_rhyming_characters rhyme_data character tone_filter system limit
    target_tone target_group = RhymeLookup.Found res →
  Forall
    (λ r,
       RhymeLookup.Entry (RhymeLookup.character r) (RhymeLookup.jyutping r)
         (RhymeLookup.tone r)
       ∈ RhymeLookup.all_rhymes_of rhyme_data (RhymeLookup.final res)
       ∧ RhymeLookup.tone_group r
         = get_tone_group (RhymeLookup.tone r) system)
    (RhymeLookup.rhymes res).
Proof.
  intros (final & jyutping & tone & others & _ & -> & _ & _ & ->)%find_found_inv.
  apply Forall_forall. intros r Hr%slice_to_subseteq.
  apply elem_of_siblings_where in Hr as (e & -> & He & _ & _).
  split; [by destruct e|done].
Qed.

(** X10: the limit only truncates: for limits that are not negative, the
    rhymes returned under the smaller limit are a prefix of those returned
    under the larger one, and no more than the limit are returned. *)
Theorem rhymes_grow_with_limit rhyme_data character tone_filter system
    limit1 limit2 target_tone target_group :
  0 ≤ limit1 ≤ limit2 →
  RhymeLookup.rhymes_of
    (find_rhyming_characters rhyme_data character tone_filter system limit1
       target_tone target_group)
  `prefix_of`
  RhymeLookup.rhymes_of
    (find_rhyming_characters rhyme_data character tone_filter system limit2
       target_tone target_group)
  ∧ Z.of_nat
      (length
         (RhymeLookup.rhymes_of
            (find_rhyming_characters rhyme_data character tone_filter
               system limit1 target_tone target_group)))
    ≤ limit1.
Proof.
  intros Hlimits.
  destruct (RhymeLookup.get_character_info rhyme_data character)
    as [[|[[final jyutping] tone] others]|] eqn:Hinfo;
    try (unfold RhymeLookup.find_rhyming_characters; rewrite Hinfo; simpl;
         split; [done|lia]).
  pose proof (λ limit,
    find_rhyming_characters_found TONE_TO_1056 TONE_TO_0243 rhyme_data
      character tone_filter system limit target_tone target_group final
      jyutping tone others Hinfo) as H.
  destruct (H limit1) as (res1 & -> & _ & Hr1 & _).
  destruct (H limit2) as (res2 & -> & _ & Hr2 & _).
  simpl. rewrite Hr1, Hr2, !slice_to_nonneg by lia. split.
  - replace (Z.to_nat limit1) with (Z.to_nat limit1 `min` Z.to_nat limit2)%nat
      by lia.
    rewrite <- take_take. apply prefix_take.
  - rewrite length_take. lia.
Qed.

Lemma siblings_where_mono character system (P Q : RhymeLookup.entry → Prop)
    `{!∀ e, Decision (P e), !∀ e, Decision (Q e)} siblings :
  (∀ e, P e → Q e) →
  siblings_where character system P siblings
  `sublist_of` siblings_where character system Q siblings.
Proof.
  intros HPQ. unfold Spec.siblings_where. apply fmap_sublist.
  induction siblings as [|e siblings IH]; [done|].
  rewrite !filter_cons.
  destruct (decide (RhymeLookup.e_char e ≠ character ∧ P e)) as [[? ?]|];
    destruct (decide (RhymeLookup.e_char e ≠ character ∧ Q e)) as [|Hn].
  - by apply sublist_skip.
  - destruct Hn. auto.
  - by apply sublist_cons.
  - done.
Qed.

(** X11: without targets the modes nest: the set filtered under "same" is
    a subsequence of the set under "group", which is a subsequence of the
    set under "all". *)
Theorem modes_nest rhyme_data character system limit final jyutping tone
    others :
  RhymeLookup.get_character_info rhyme_data character
    = Some ((final, jyutping, tone) :: others) →
  ∃ same group all,
    Spec.answers
      (find_rhyming_characters rhyme_data character "same" system limit
         None None) limit same
    ∧ Spec.answers
        (find_rhyming_characters rhyme_data character "group" system limit
           None None) limit group
    ∧ Spec.answers
        (find_rhyming_characters rhyme_data character "all" system limit
           None None) limit all
    ∧ same `sublist_of` group
    ∧ group `sublist_of` all.
Proof.
  intros Hinfo.
  pose proof (λ tone_filter,
    find_rhyming_characters_found TONE_TO_1056 TONE_TO_0243 rhyme_data
      character tone_filter system limit None None final jyutping tone
      others Hinfo) as H.
  do 3 eexists. split; [apply (H "same")|].
  split; [apply (H "group")|]. split; [apply (H "all")|].
  split; apply siblings_where_mono; intros e He.
  - unfold Spec.keeps in *. simpl in *. by rewrite He.
  - done.
Qed.

(** X12: a target tone selects within its own group: the set filtered by
    [target_tone] is a subsequence of the set filtered by the group of that
    tone given as [target_group]. *)
Theorem target_tone_within_its_group rhyme_data character system limit final
    jyutping tone others (wanted_tone : Z) tone_filter1 tone_filter2
    target_group :
  RhymeLookup.get_character_info rhyme_data character
    = Some ((final, jyutping, tone) :: others) →
  ∃ by_tone by_group,
    Spec.answers
      (find_rhyming_characters rhyme_data character tone_filter1 system
         limit (Some wanted_tone) target_group) limit by_tone
    ∧ Spec.answers
        (find_rhyming_characters rhyme_data character tone_filter2 system
           limit None (Some (get_tone_group wanted_tone system)))
        limit by_group
    ∧ by_tone `sublist_of` by_group.
Proof.
  intros Hinfo.
  pose proof (λ tone_filter target_tone target_group,
    find_rhyming_characters_found TONE_TO_1056 TONE_TO_0243 rhyme_data
      character tone_filter system limit target_tone target_group final
      jyutping tone others Hinfo) as H.
  do 2 eexists. split; [apply H|]. split; [apply H|].
  apply siblings_where_mono. intros e He.
  unfold Spec.keeps in *. simpl in *. by rewrite He.
Qed.

Lemma length_without_self character (P : RhymeLookup.entry → Prop)
    `{!∀ e, Decision (P e)} (siblings : list RhymeLookup.entry) :
  (∀ e, P e) →
  length siblings
  = (length (filter (λ e, RhymeLookup.e_char e ≠ character ∧ P e) siblings)
     + length (filter (λ e, RhymeLookup.e_char e = character) siblings))%nat.
Proof.
  intros HP. induction siblings as [|e siblings IH]; [done|].
  rewrite !filter_cons.
  destruct (decide (RhymeLookup.e_char e = character)) as [Heq|Hne].
  - rewrite decide_False by tauto. simpl. lia.
  - rewrite decide_True by auto. simpl. lia.
Qed.

(** X13: a query in the mode "all" counts the entries of the input's final
    except those of the input character itself: with the keys of the
    dataset distinct, [total_count] of [get_characters_by_final] for that
    final is [total_count] of the query plus the number of entries of the
    input character, and is strictly larger. *)
Theorem rhymes_are_final_minus_self rhyme_data character system limit1 limit2
    final jyutping tone others :
  dict_wf rhyme_data →
  RhymeLookup.get_character_info rhyme_data character
    = Some ((final, jyutping, tone) :: others) →
  ∃ res characters count total,
    find_rhyming_characters rhyme_data character "all" system limit1 None
      None = RhymeLookup.Found res
    ∧ RhymeLookup.get_characters_by_final rhyme_data final None limit2
      = RhymeLookup.FinalFound final None characters count total
    ∧ total
      = (RhymeLookup.total_count res
         + length
             (filter (λ e, RhymeLookup.e_char e = character)
                (RhymeLookup.all_rhymes_of rhyme_data final)))%nat
    ∧ (RhymeLookup.total_count res < total)%nat.
Proof.
  intros Hwf Hinfo.
  destruct (find_rhyming_characters_found TONE_TO_1056 TONE_TO_0243
              rhyme_data character "all" system limit1 None None final
              jyutping tone others Hinfo)
    as (res & Hres & Htotal & _ & _).
  assert ((final, jyutping, tone) ∈ Spec.readings_of rhyme_data character)
    as Hin.
  { unfold RhymeLookup.get_character_info in Hinfo.
    rewrite lookup_character_index in Hinfo.
    destruct (Spec.readings_of rhyme_data character); simpl in Hinfo;
      [done|]. injection Hinfo as H1 H2. subst. by left. }
  destruct (readings_of_elem _ _ _ _ _ Hin) as (data & Hd & He).
  pose proof (dict_get_elem _ _ _ Hwf Hd) as Hget.
  assert (RhymeLookup.all_rhymes_of rhyme_data final
          = default [] (RhymeLookup.characters data)) as Hall.
  { unfold RhymeLookup.all_rhymes_of. by rewrite Hget. }
  exists res. do 3 eexists. split; [done|].
  split.
  { rewrite (get_characters_by_final_found _ _ _ _ _ Hget). cbv zeta.
    reflexivity. }
  rewrite Htotal, Hall. unfold Spec.siblings_where. rewrite length_fmap.
  pose proof (length_without_self character
                (keeps "all" system tone None None)
                (default [] (RhymeLookup.characters data))) as Hlen.
  assert (0 < length
                (filter (λ e, RhymeLookup.e_char e = character)
                   (default [] (RhymeLookup.characters data))))%nat as Hself.
  { assert (RhymeLookup.Entry character jyutping tone
            ∈ filter (λ e, RhymeLookup.e_char e = character)
                (default [] (RhymeLookup.characters data))) as Hself.
    { by apply list_elem_of_filter. }
    destruct (filter (λ e, RhymeLookup.e_char e = character)
                (default [] (RhymeLookup.characters data))).
    - by apply elem_of_nil in Hself.
    - simpl. lia. }
  specialize (Hlen ltac:(done)).
  split; [exact Hlen|]. rewrite Hlen. lia.
Qed.

(** X14: a query that names only the character uses the mode "all", the
    scheme "0243" and the limit 50: it returns the first 50 siblings other
    than the character, whatever their tone. *)
Theorem default_query rhyme_data character final jyutping tone others :
  RhymeLookup.get_character_info rhyme_data character
    = Some ((final, jyutping, tone) :: others) →
  ∃ res,
    Server.get_rhyming_characters TONE_TO_1056 TONE_TO_0243 rhyme_data
      character None None None None None = RhymeLookup.Found res
    ∧ RhymeLookup.system res = "0243"
    ∧ RhymeLookup.tone_filter res = "all"
    ∧ RhymeLookup.rhymes res
      = take 50
          (siblings_where character "0243" (λ _, True)
             (RhymeLookup.all_rhymes_of rhyme_data final))
    ∧ (RhymeLookup.count res ≤ 50)%nat.
Proof.
  intros Hinfo. unfold Server.get_rhyming_characters. simpl.
  destruct (find_rhyming_characters_found TONE_TO_1056 TONE_TO_0243
              rhyme_data character "all" "0243" 50 None None final
              jyutping tone others Hinfo)
    as (res & Hres & _ & Hrhymes & Hcount).
  exists res. split; [done|].
  unfold RhymeLookup.find_rhyming_characters in Hres. rewrite Hinfo in Hres.
  injection Hres as Hres.
  split; [by rewrite <- Hres|]. split; [by rewrite <- Hres|].
  rewrite Hcount, Hrhymes. split.
  - erewrite siblings_where_iff; [reflexivity|done].
  - rewrite slice_to_nonneg, length_take by lia. lia.
Qed.

End RhymeMore.

Lemma slice_to_sublist {A} (l : list A) (stop : Z) :
  slice_to l stop `sublist_of` l.
Proof. unfold slice_to. case_bool_decide; apply sublist_take. Qed.

(** X15: for a final of the dataset, [get_characters_by_final] returns
    entries of that final in their stored order, all of the requested tone
    when a tone is given, and never more than it counts: [count] is at most
    [total_count], which is at most the number of entries of the final. *)
Theorem characters_by_final_filtered (rhyme_data : RhymeLookup.RhymeData)
    (final : string) (tone_filter : option Z) (limit : Z)
    (data : RhymeLookup.final_data) :
  dict_get rhyme_data final = Some data →
  ∃ characters count total_count,
    RhymeLookup.get_characters_by_final rhyme_data final tone_filter limit
    = RhymeLookup.FinalFound final tone_filter characters count total_count
    ∧ characters `sublist_of` default [] (RhymeLookup.characters data)
    ∧ Forall (λ e, ∀ tone, tone_filter = Some tone → RhymeLookup.e_tone e = tone)
        characters
    ∧ count = length characters
    ∧ (count ≤ total_count)%nat
    ∧ (total_count ≤ length (default [] (RhymeLookup.characters data)))%nat.
Proof.
  intros Hget. rewrite (get_characters_by_final_found _ _ _ _ _ Hget).
  cbv zeta. do 3 eexists. split; [reflexivity|].
  set (all_chars := default [] (RhymeLookup.characters data)).
  assert (match tone_filter with
          | Some tone => filter (λ c, RhymeLookup.e_tone c = tone) all_chars
          | None => all_chars
          end `sublist_of` all_chars) as Hsub.
  { destruct tone_filter; [apply sublist_filter|done]. }
  split_and!.
  - etrans; [apply slice_to_sublist|exact Hsub].
  - apply Forall_forall. intros e He%slice_to_subseteq tone ->.
    by apply list_elem_of_filter in He as [? _].
  - done.
  - apply sublist_length, slice_to_sublist.
  - by apply sublist_length.
Qed.

(** X16: [get_characters_by_final] answers with the error shape exactly for
    the finals that [get_available_finals] does not list. *)
Theorem final_error_iff_not_listed (rhyme_data : RhymeLookup.RhymeData)
    (final : string) (tone_filter : option Z) (limit : Z) :
  (∃ error available_finals,
     RhymeLookup.get_characters_by_final rhyme_data final tone_filter limit
     = RhymeLookup.FinalNotFound error available_finals)
  ↔ final ∉ RhymeLookup.get_available_finals rhyme_data.
Proof.
  unfold RhymeLookup.get_available_finals, sorted.
  rewrite (merge_sort_Permutation String.le (dict_keys rhyme_data)).
  unfold RhymeLookup.get_characters_by_final, dict_contains.
  case_bool_decide as Hin; simpl.
  - split; [by intros (? & ? & ?)|done].
  - split; [done|]. intros _. by do 2 eexists.
Qed.

(** ** Properties of the server tools *)

Lemma romanization_parts_omap (result : list (string * option string)) :
  ∀ parts,
    foldl
      (λ romanization_parts '(char, jyutping),
         if truthy jyutping
         then romanization_parts ++ [default "" jyutping]
         else romanization_parts)
      parts result
    = parts
      ++ filter (λ s, s ≠ "")
           ((Server.jyutping (Server.get_jyutping "" result)).*2).
Proof.
  induction result as [|[char jyutping] result IH]; intros parts; simpl.
  { by rewrite app_nil_r. }
  rewrite IH. destruct jyutping as [s|]; simpl.
  - case_bool_decide as Hs; simpl.
    + rewrite filter_cons_True by done. by rewrite <- app_assoc.
    + rewrite filter_cons_False; [done|]. by intros ?.
  - rewrite filter_cons_False; [done|]. by intros ?.
Qed.

Lemma join_nonempty (sep x : string) (parts : list string) :
  x ≠ "" → join sep (x :: parts) ≠ "".
Proof.
  intros Hx. unfold join. simpl. destruct parts; [done|].
  destruct x; [done|discriminate].
Qed.

(** X17: [get_jyutping] keeps the characters of the romanizer's list in
    their order and gives the empty syllable to those without one; the
    romanization joins the non-empty syllables of the pairs in order, and
    is empty exactly when no character has a syllable. *)
Theorem get_jyutping_pairs (text : string)
    (result : list (string * option string)) :
  Server.text (Server.get_jyutping text result) = text
  ∧ (Server.jyutping (Server.get_jyutping text result)).*1 = result.*1
  ∧ Forall2 (λ pair original, pair.2 = default "" original.2)
      (Server.jyutping (Server.get_jyutping text result)) result
  ∧ Server.romanization (Server.get_jyutping text result)
    = join " "
        (filter (λ s, s ≠ "")
           ((Server.jyutping (Server.get_jyutping text result)).*2))
  ∧ (Server.romanization (Server.get_jyutping text result) = ""
     ↔ Forall (λ pair, pair.2 = "")
         (Server.jyutping (Server.get_jyutping text result))).
Proof.
  split; [done|]. split.
  { simpl. induction result as [|[char jyutping] result IH]; [done|].
    simpl. f_equal. exact IH. }
  split.
  { simpl. induction result as [|[char jyutping] result IH];
      constructor; [|done].
    simpl. destruct jyutping as [s|]; simpl; [|done].
    case_bool_decide as Hs; [done|]. try apply dec_stable in Hs. done. }
  assert (Server.romanization (Server.get_jyutping text result)
          = join " "
              (filter (λ s, s ≠ "")
                 ((Server.jyutping (Server.get_jyutping text result)).*2)))
    as Hrom.
  { simpl. by rewrite romanization_parts_omap. }
  split; [exact Hrom|]. rewrite Hrom.
  set (pairs := Server.jyutping (Server.get_jyutping text result)).
  clearbody pairs. clear. induction pairs as [|[char syllable] pairs IH].
  { done. }
  simpl. rewrite filter_cons. destruct (decide (syllable ≠ "")) as [Hs|Hs].
  - split; [by intros ?%join_nonempty|].
    intros [? _]%Forall_cons. done.
  - apply dec_stable in Hs. rewrite IH. split.
    + intros ?. by constructor.
    + by intros [_ ?]%Forall_cons.
Qed.

Lemma extract_tone_of_pair (jyutping : option string) :
  ToneMapper.extract_tone_from_jyutping
    (Some (if truthy jyutping then default "" jyutping else ""))
  = ToneMapper.extract_tone_from_jyutping jyutping.
Proof.
  destruct jyutping as [s|]; simpl; [|done].
  case_bool_decide as Hs; [done|]. try apply dec_stable in Hs. by subst.
Qed.

Lemma breakdown_tones system (pairs : list (string * option string)) tones :
  length pairs = length tones →
  ToneMapper.tone <$> zip_with (Spec.breakdown_of system) pairs tones = tones
  ∧ ToneMapper.character <$> zip_with (Spec.breakdown_of system) pairs tones
    = pairs.*1.
Proof.
  revert tones. induction pairs as [|pair pairs IH]; intros [|tone tones];
    try done.
  intros [= Hlen]. destruct (IH tones Hlen) as [IH1 IH2].
  split; simpl; f_equal; done.
Qed.

(** X18: the two tools agree: the pairs that [get_jyutping] returns, given
    to the analyzer, have the pattern, the characters and the tones that
    [get_tone_pattern] finds on the romanizer's list; replacing a missing
    syllable by the empty one changes no tone. *)
Theorem tools_agree (text : string) (result : list (string * option string))
    (system : option string) (tp : Server.tone_pattern) :
  Server.get_tone_pattern text result system = Returns tp →
  ∃ tp',
    Server.get_tone_pattern text
      ((λ pair, (pair.1, Some pair.2))
         <$> Server.jyutping (Server.get_jyutping text result))
      system
    = Returns tp'
    ∧ ToneMapper.pattern (Server.tp_analysis tp')
      = ToneMapper.pattern (Server.tp_analysis tp)
    ∧ ToneMapper.tone <$> ToneMapper.breakdown (Server.tp_analysis tp')
      = ToneMapper.tone <$> ToneMapper.breakdown (Server.tp_analysis tp)
    ∧ ToneMapper.character <$> ToneMapper.breakdown (Server.tp_analysis tp')
      = ToneMapper.character
          <$> ToneMapper.breakdown (Server.tp_analysis tp).
Proof.
  unfold Server.get_tone_pattern.
  destruct (ToneMapper.analyze_tones result (default "0243" system))
    as [a|e] eqn:Ha; [|done].
  simpl. intros [= <-].
  apply analyze_tones_returns_inv in Ha as (tones & Hy & ->).
  set (pairs := (λ pair : string * string, (pair.1, Some pair.2))
                  <$> Server.jyutping (Server.get_jyutping text result)).
  assert (Forall2 (λ pair tone, Spec.yields pair.2 tone) pairs tones
          ∧ pairs.*1 = result.*1) as [Hy' Hchars].
  { subst pairs. simpl. clear -Hy.
    induction Hy as [|[char jyutping] tone result tones Hy _ [IH1 IH2]].
    - split; [constructor|done].
    - split; [constructor; [|exact IH1]|simpl; f_equal; exact IH2].
      exact (eq_trans (extract_tone_of_pair jyutping) Hy). }
  unfold ToneMapper.analyze_tones.
  rewrite (analyze_loop_yields _ pairs tones [] [] Hy'). simpl.
  eexists. split; [reflexivity|]. simpl.
  destruct (breakdown_tones (default "0243" system) pairs tones
              (Forall2_length _ _ _ Hy')) as [-> ->].
  destruct (breakdown_tones (default "0243" system) result tones
              (Forall2_length _ _ _ Hy)) as [-> ->].
  done.
Qed.

Lemma tools_agree_nei_hou :
  Server.get_tone_pattern "你好" (Sample.nei_hou ++ [("!", None)]) None
  = Returns
      (Server.TonePattern "你好"
         (ToneMapper.Analysis "0243" "23"
            [ ToneMapper.BreakdownItem "你" (Some "nei5") (Some 5) (Some "2");
              ToneMapper.BreakdownItem "好" (Some "hou2") (Some 2) (Some "3");
              ToneMapper.BreakdownItem "!" None None None ]))
  ∧ ∃ tp',
      Server.get_tone_pattern "你好"
        ((λ pair, (pair.1, Some pair.2))
           <$> Server.jyutping
                 (Server.get_jyutping "你好"
                    (Sample.nei_hou ++ [("!", None)])))
        None
      = Returns tp'
      ∧ ToneMapper.pattern (Server.tp_analysis tp') = "23"
      ∧ ToneMapper.tone <$> ToneMapper.breakdown (Server.tp_analysis tp')
        = [Some 5; Some 2; None]
      ∧ ToneMapper.character
          <$> ToneMapper.breakdown (Server.tp_analysis tp')
        = ["你"; "好"; "!"].
Proof.
  split; [reflexivity|].
  exact (tools_agree "你好" (Sample.nei_hou ++ [("!", None)]) None _ eq_refl).
Defined.

(** ** Properties of the scraper *)

(** X19: for each of the four tone columns and every part of a cell, the
    scraper finds a tone, one of the tones of the column and so one of 1
    to 6; a part beyond the tones of the column takes the last of them. *)
Theorem part_tone_of_columns (tones : list Z) (part_idx : nat) :
  tones ∈ ScrapeRhymes.TONE_COLUMNS →
  ∃ tone,
    ScrapeRhymes.part_tone tones part_idx = Some tone
    ∧ tone ∈ tones
    ∧ 1 ≤ tone ≤ 6
    ∧ ((length tones ≤ part_idx)%nat → last tones = Some tone).
Proof.
  unfold ScrapeRhymes.TONE_COLUMNS. rewrite !elem_of_cons, elem_of_nil.
  unfold ScrapeRhymes.part_tone.
  intros [->|[->|[->|[->|[]]]]];
    destruct part_idx as [|[|part_idx]]; simpl;
    eexists; (split; [reflexivity|]);
    rewrite ?elem_of_cons; (split; [tauto|]); (split; [lia|]);
    intros ?; try done; lia.
Qed.

Lemma part_tone_of_columns_third :
  [5; 3] ∈ ScrapeRhymes.TONE_COLUMNS
  ∧ ∃ tone,
      ScrapeRhymes.part_tone [5; 3] 2 = Some tone
      ∧ tone ∈ [5; 3]
      ∧ 1 ≤ tone ≤ 6
      ∧ ((length [5; 3] ≤ 2)%nat → last [5; 3] = Some tone).
Proof.
  assert ([5; 3] ∈ ScrapeRhymes.TONE_COLUMNS) as H.
  { apply (bool_decide_unpack _). by vm_compute. }
  split; [exact H|]. exact (part_tone_of_columns [5; 3] 2 H).
Defined.

(** X20: [is_chinese_char] accepts no code point below U+3400 and none
    above U+2FA1F: the letters, digits and punctuation of a cell are
    skipped. *)
Theorem is_chinese_char_bounds (code : Z) :
  ScrapeRhymes.is_chinese_char code = true → 0x3400 ≤ code ≤ 0x2FA1F.
Proof.
  unfold ScrapeRhymes.is_chinese_char.
  rewrite !orb_true_iff, !bool_decide_eq_true. lia.
Qed.

Lemma is_chinese_char_bounds_oi :
  ScrapeRhymes.is_chinese_char 0x611B = true ∧ 0x3400 ≤ 0x611B ≤ 0x2FA1F.
Proof.
  assert (ScrapeRhymes.is_chinese_char 0x611B = true) as H by reflexivity.
  split; [exact H|]. exact (is_chinese_char_bounds 0x611B H).
Defined.

(** *** Deduplication and the stored dataset *)

Lemma dedup_loop_kept (characters : list RhymeLookup.entry) :
  ∀ (seen : gset (string * string)) (stored : list RhymeLookup.entry),
  ∃ kept,
    ScrapeRhymes.dedup_loop characters seen stored = stored ++ kept
    ∧ kept `sublist_of` characters
    ∧ NoDup (Notions.entry_key <$> kept)
    ∧ (∀ e, e ∈ kept → Notions.entry_key e ∉ seen)
    ∧ (∀ e, e ∈ characters →
         Notions.entry_key e ∈ seen
         ∨ Notions.entry_key e ∈ Notions.entry_key <$> kept)
    ∧ (seen = ∅ → characters ≠ [] → kept ≠ []).
Proof.
  induction characters as [|e characters IH]; intros seen stored.
  { exists []. rewrite app_nil_r. split_and!; try done.
    - constructor.
    - by intros ? ?%elem_of_nil.
    - by intros ? ?%elem_of_nil. }
  simpl. fold (Notions.entry_key e). case_bool_decide as Hseen.
  - destruct (IH ({[Notions.entry_key e]} ∪ seen) (stored ++ [e]))
      as (kept & -> & Hsub & Hnd & Hfresh & Hcover & _).
    exists (e :: kept). rewrite <- app_assoc. split_and!; try done.
    + by apply sublist_skip.
    + rewrite fmap_cons. apply NoDup_cons. split; [|done].
      intros (e' & Hkey & He')%list_elem_of_fmap.
      apply (Hfresh e' He'). rewrite <- Hkey. set_solver.
    + intros e' [->|He']%elem_of_cons; [done|].
      specialize (Hfresh e' He'). set_solver.
    + intros e' [->|He']%elem_of_cons.
      * right. rewrite fmap_cons. by left.
      * destruct (Hcover e' He') as [Hin|Hin].
        -- apply elem_of_union in Hin as [Hin|Hin]; [|by left].
           apply elem_of_singleton in Hin. right. rewrite fmap_cons, Hin.
           by left.
        -- right. rewrite fmap_cons. by right.
  - destruct (IH seen stored) as (kept & -> & Hsub & Hnd & Hfresh & Hcover & _).
    exists kept. split_and!; try done.
    + by apply sublist_cons.
    + intros e' [->|He']%elem_of_cons; [by left|by apply Hcover].
    + intros ->. set_solver.
Qed.

Lemma dedup_loop_distinct (characters : list RhymeLookup.entry) :
  ∀ (seen : gset (string * string)) (stored : list RhymeLookup.entry),
    NoDup (Notions.entry_key <$> characters) →
    (∀ e, e ∈ characters → Notions.entry_key e ∉ seen) →
    ScrapeRhymes.dedup_loop characters seen stored = stored ++ characters.
Proof.
  induction characters as [|e characters IH]; intros seen stored Hnd Hfresh.
  { by rewrite app_nil_r. }
  simpl. fold (Notions.entry_key e).
  rewrite fmap_cons in Hnd. apply NoDup_cons in Hnd as [Hnotin Hnd].
  rewrite bool_decide_eq_true_2 by (apply Hfresh; by left).
  rewrite IH; [by rewrite <- app_assoc|done|].
  intros e' He' [Hin|Hin]%elem_of_union.
  - apply elem_of_singleton in Hin. apply Hnotin. rewrite <- Hin.
    by apply list_elem_of_fmap_2.
  - apply (Hfresh e'); [by right|done].
Qed.

Lemma dedup_loop_stored (characters : list RhymeLookup.entry) :
  ∀ (seen : gset (string * string)) (stored : list RhymeLookup.entry),
    ScrapeRhymes.dedup_loop characters seen stored
    = stored ++ ScrapeRhymes.dedup_loop characters seen [].
Proof.
  induction characters as [|e characters IH]; intros seen stored; simpl.
  { by rewrite app_nil_r. }
  case_bool_decide; [|apply IH].
  rewrite (IH _ (stored ++ [e])), (IH _ ([] ++ [e])).
  by rewrite <- !app_assoc.
Qed.

(** X21: the deduplication of a table appends to what is stored a
    subsequence of the table's entries in which no two entries share
    character and syllable, which holds the key of every entry of the
    table and is not empty when the table has entries.  What it appends
    does not depend on what is stored, so an entry that an earlier table of
    the final brought in is stored again; deduplicating the kept entries
    again keeps them all. *)
Theorem dedup_keeps_first_occurrences
    (characters stored : list RhymeLookup.entry) :
  ∃ kept,
    ScrapeRhymes.dedup_loop characters ∅ stored = stored ++ kept
    ∧ kept = ScrapeRhymes.dedup_loop characters ∅ []
    ∧ kept `sublist_of` characters
    ∧ NoDup (Notions.entry_key <$> kept)
    ∧ (∀ e, e ∈ characters →
         Notions.entry_key e ∈ Notions.entry_key <$> kept)
    ∧ (characters ≠ [] → kept ≠ [])
    ∧ ScrapeRhymes.dedup_loop kept ∅ [] = kept.
Proof.
  destruct (dedup_loop_kept characters ∅ [])
    as (kept & Heq & Hsub & Hnd & _ & Hcover & Hne).
  rewrite app_nil_l in Heq.
  exists kept. split_and!; try done.
  - by rewrite dedup_loop_stored, Heq.
  - intros e He. destruct (Hcover e He) as [Hin|Hin]; [set_solver|done].
  - by apply Hne.
  - rewrite dedup_loop_distinct; [done|done|set_solver].
Qed.

Lemma dict_get_set {V} (d : list (string * V)) k v k' :
  dict_get (dict_set d k v) k'
  = if decide (k = k') then Some v else dict_get d k'.
Proof.
  induction d as [|[k0 v0] d IH]; simpl.
  - destruct (decide (k = k')); done.
  - destruct (decide (k0 = k)) as [->|Hne]; simpl.
    + destruct (decide (k = k')); done.
    + rewrite IH. destruct (decide (k0 = k')) as [->|]; [|done].
      by rewrite decide_False by done.
Qed.

Lemma dict_keys_set {V} (d : list (string * V)) k v :
  dict_keys (dict_set d k v)
  = if decide (k ∈ dict_keys d) then dict_keys d else dict_keys d ++ [k].
Proof.
  unfold dict_keys. induction d as [|[k0 v0] d IH].
  - destruct (decide (k ∈ ([] : list (string * V)).*1)) as [Hin|]; [|done].
    by apply elem_of_nil in Hin.
  - change (dict_set ((k0, v0) :: d) k v)
      with (if decide (k0 = k) then (k, v) :: d
            else (k0, v0) :: dict_set d k v).
    rewrite !fmap_cons. simpl.
    destruct (decide (k0 = k)) as [->|Hne].
    + rewrite fmap_cons. simpl.
      destruct (decide (k ∈ k :: d.*1)) as [|Hn]; [done|].
      destruct Hn. by left.
    + rewrite fmap_cons, IH. simpl.
      destruct (decide (k ∈ d.*1)) as [Hin|Hnotin];
        destruct (decide (k ∈ k0 :: d.*1)) as [Hin'|Hnotin']; try done.
      * destruct Hnotin'. by right.
      * apply elem_of_cons in Hin' as [?|?]; by subst.
Qed.

Lemma dict_wf_set {V} (d : list (string * V)) k v :
  dict_wf d → dict_wf (dict_set d k v).
Proof.
  unfold dict_wf. rewrite dict_keys_set. intros Hwf.
  destruct (decide (k ∈ dict_keys d)); [done|].
  apply NoDup_app. split; [done|]. split; [|apply NoDup_singleton].
  intros k' Hk' ->%list_elem_of_singleton. done.
Qed.

Lemma dict_get_None {V} (d : list (string * V)) k :
  k ∉ dict_keys d → dict_get d k = None.
Proof.
  intros Hnotin. destruct (dict_get d k) eqn:Hget; [|done].
  by apply dict_get_keys in Hget.
Qed.

Lemma dict_get_elem_of {V} (d : list (string * V)) k v :
  dict_get d k = Some v → (k, v) ∈ d.
Proof.
  induction d as [|[k0 v0] d IH]; simpl; [done|].
  case_decide as Hk; [intros [= ->]; subst; by left|].
  intros ?. right. by apply IH.
Qed.

Lemma store_section_get (rhyme_data : ScrapeRhymes.dataset) final characters
    final' :
  characters ≠ [] →
  dict_get (ScrapeRhymes.store_section rhyme_data final characters) final'
  = if decide (final = final')
    then Some (ScrapeRhymes.dedup_loop characters ∅
                 (default [] (dict_get rhyme_data final)))
    else dict_get rhyme_data final'.
Proof.
  intros Hne. unfold ScrapeRhymes.store_section, dict_contains.
  destruct characters as [|e characters]; [done|].
  rewrite dict_get_set. case_bool_decide as Hin.
  - done.
  - rewrite !dict_get_set. rewrite (decide_True (P := final = final)) by done.
    rewrite (dict_get_None rhyme_data final Hin).
    destruct (decide (final = final')); done.
Qed.

Lemma store_section_wf (rhyme_data : ScrapeRhymes.dataset) final characters :
  dict_wf rhyme_data →
  dict_wf (ScrapeRhymes.store_section rhyme_data final characters).
Proof.
  intros Hwf. unfold ScrapeRhymes.store_section.
  destruct characters; [done|].
  apply dict_wf_set. destruct (dict_contains rhyme_data final); [done|].
  by apply dict_wf_set.
Qed.

Lemma collect_snoc sections final characters :
  ScrapeRhymes.collect (sections ++ [(final, characters)])
  = ScrapeRhymes.store_section (ScrapeRhymes.collect sections) final
      characters.
Proof. unfold ScrapeRhymes.collect. by rewrite foldl_snoc. Qed.

Lemma collect_invariant (sections : list (string * list RhymeLookup.entry)) :
  dict_wf (ScrapeRhymes.collect sections)
  ∧ (∀ final stored,
       dict_get (ScrapeRhymes.collect sections) final = Some stored →
       stored ≠ []
       ∧ ∀ e, e ∈ stored →
           ∃ characters, (final, characters) ∈ sections ∧ e ∈ characters)
  ∧ (∀ final characters e,
       (final, characters) ∈ sections → e ∈ characters →
       ∃ stored,
         dict_get (ScrapeRhymes.collect sections) final = Some stored
         ∧ Notions.entry_key e ∈ Notions.entry_key <$> stored).
Proof.
  induction sections as [|[final characters] sections (Hwf & Hsound & Hfull)]
    using rev_ind.
  { split; [constructor|]. split; [done|]. by intros ? ? ? ?%elem_of_nil. }
  rewrite collect_snoc. split; [by apply store_section_wf|].
  destruct characters as [|e0 characters].
  { simpl. split.
    - intros final' stored Hget. destruct (Hsound _ _ Hget) as [Hne Hfrom].
      split; [done|]. intros e He.
      destruct (Hfrom e He) as (cs & Hcs & Hin). exists cs.
      split; [|done]. apply elem_of_app. by left.
    - intros final' cs e [Hin|Hin]%elem_of_app He; [by eapply Hfull|].
      apply list_elem_of_singleton in Hin as [= -> ->].
      by apply elem_of_nil in He. }
  set (characters' := e0 :: characters) in *.
  assert (characters' ≠ []) as Hne by done.
  destruct (dedup_loop_kept characters' ∅
              (default [] (dict_get (ScrapeRhymes.collect sections) final)))
    as (kept & Hkept & Hsub & _ & _ & Hcover & Hkne).
  split.
  - intros final' stored. rewrite store_section_get by done.
    destruct (decide (final = final')) as [<-|Hdiff].
    + rewrite Hkept. intros [= <-]. split.
      { intros [_ Hnil]%app_eq_nil. by apply Hkne. }
      intros e [He|He]%elem_of_app.
      * destruct (dict_get (ScrapeRhymes.collect sections) final)
          as [old|] eqn:Hold; [|by apply elem_of_nil in He].
        destruct (Hsound _ _ Hold) as [_ Hfrom].
        destruct (Hfrom e He) as (cs & Hcs & Hin). exists cs.
        split; [|done]. apply elem_of_app. by left.
      * exists characters'. split.
        -- apply elem_of_app. right. by apply list_elem_of_singleton.
        -- by eapply elem_of_sublist.
    + intros Hget. destruct (Hsound _ _ Hget) as [Hne' Hfrom].
      split; [done|]. intros e He.
      destruct (Hfrom e He) as (cs & Hcs & Hin). exists cs.
      split; [|done]. apply elem_of_app. by left.
  - intros final' cs e [Hin|Hin]%elem_of_app He.
    + destruct (Hfull _ _ _ Hin He) as (stored & Hget & Hkey).
      rewrite store_section_get by done.
      destruct (decide (final = final')) as [<-|Hdiff]; [|by exists stored].
      rewrite Hkept, Hget. simpl. eexists. split; [reflexivity|].
      rewrite fmap_app. apply elem_of_app. by left.
    + apply list_elem_of_singleton in Hin as [= -> ->].
      rewrite store_section_get, decide_True by done.
      rewrite Hkept. eexists. split; [reflexivity|].
      rewrite fmap_app. apply elem_of_app. right.
      destruct (Hcover e He) as [?|?]; [set_solver|done].
Qed.

(** X22: the dataset that the scraper builds from the tables of a page has
    distinct finals; the list stored under a final is never empty and
    holds only entries of tables of that final; and every entry of every
    table is represented under its final by an entry with the same
    character and syllable. *)
Theorem collected_dataset_invariant
    (sections : list (string * list RhymeLookup.entry)) :
  dict_wf (ScrapeRhymes.collect sections)
  ∧ (∀ final stored,
       dict_get (ScrapeRhymes.collect sections) final = Some stored →
       stored ≠ []
       ∧ ∀ e, e ∈ stored →
           ∃ characters, (final, characters) ∈ sections ∧ e ∈ characters)
  ∧ (∀ final characters e,
       (final, characters) ∈ sections → e ∈ characters →
       ∃ stored,
         dict_get (ScrapeRhymes.collect sections) final = Some stored
         ∧ Notions.entry_key e ∈ Notions.entry_key <$> stored).
Proof.
  pose proof (collect_invariant sections) as (Hwf & Hsound & Hfull).
  split; [exact Hwf|]. split; [exact Hsound|exact Hfull].
Qed.

Lemma dict_get_dumped (rhyme_data : ScrapeRhymes.dataset) final :
  dict_get (ScrapeRhymes.dumped rhyme_data) final
  = (λ characters, RhymeLookup.FinalData (Some characters))
      <$> dict_get rhyme_data final.
Proof.
  unfold ScrapeRhymes.dumped.
  induction rhyme_data as [|[final' characters] rhyme_data IH]; [done|].
  simpl. case_decide; [done|exact IH].
Qed.

Lemma readings_of_intro (rhyme_data : RhymeLookup.RhymeData) final data e :
  (final, data) ∈ rhyme_data →
  e ∈ default [] (RhymeLookup.characters data) →
  (final, RhymeLookup.e_jyutping e, RhymeLookup.e_tone e)
  ∈ Spec.readings_of rhyme_data (RhymeLookup.e_char e).
Proof.
  intros Hd He. unfold Spec.readings_of.
  induction rhyme_data as [|[final' data'] rhyme_data IH];
    [by apply elem_of_nil in Hd|].
  simpl. apply elem_of_app.
  apply elem_of_cons in Hd as [[= <- <-]|Hd]; [left|right; by apply IH].
  unfold Spec.readings_in.
  apply (list_elem_of_fmap_2
           (λ e, (final, RhymeLookup.e_jyutping e, RhymeLookup.e_tone e))).
  by apply list_elem_of_filter.
Qed.

(** X23: the lookup serves what the scraper stored: on the dataset read
    back from the scraper's output, every character of every table is in
    the index with a reading under the table's final and the entry's
    syllable, and the final of every table with entries is found, with at
    least one character. *)
Theorem scraped_dataset_served
    (sections : list (string * list RhymeLookup.entry))
    (final : string) (characters : list RhymeLookup.entry)
    (e : RhymeLookup.entry) (limit : Z) :
  (final, characters) ∈ sections →
  e ∈ characters →
  (∃ readings tone,
     RhymeLookup.get_character_info
       (ScrapeRhymes.dumped (ScrapeRhymes.collect sections))
       (RhymeLookup.e_char e)
     = Some readings
     ∧ (final, RhymeLookup.e_jyutping e, tone) ∈ readings)
  ∧ ∃ found count total_count,
      RhymeLookup.get_characters_by_final
        (ScrapeRhymes.dumped (ScrapeRhymes.collect sections)) final None limit
      = RhymeLookup.FinalFound final None found count total_count
      ∧ (1 ≤ total_count)%nat.
Proof.
  intros Hsec He.
  destruct (collect_invariant sections) as (_ & Hsound & Hfull).
  destruct (Hfull _ _ _ Hsec He) as (stored & Hget & Hkey).
  destruct (Hsound _ _ Hget) as [Hne _].
  assert (dict_get (ScrapeRhymes.dumped (ScrapeRhymes.collect sections)) final
          = Some (RhymeLookup.FinalData (Some stored))) as Hget'.
  { by rewrite dict_get_dumped, Hget. }
  split.
  - apply list_elem_of_fmap in Hkey as (e' & Hkey & He').
    injection Hkey as Hchar Hjyutping.
    pose proof (readings_of_intro _ _ _ e' (dict_get_elem_of _ _ _ Hget') He')
      as Hin.
    rewrite <- Hchar, <- Hjyutping in Hin.
    unfold RhymeLookup.get_character_info. rewrite lookup_character_index.
    destruct (Spec.readings_of _ (RhymeLookup.e_char e)) as [|r rs] eqn:Hr.
    + by apply elem_of_nil in Hin.
    + simpl. exists (r :: rs), (RhymeLookup.e_tone e'). done.
  - rewrite (get_characters_by_final_found _ _ _ _ _ Hget'). cbv zeta.
    do 3 eexists. split; [reflexivity|]. simpl.
    destruct stored; [done|simpl; lia].
Qed.

(** ** The further properties on the sample data *)

Lemma rhymes_share_the_final_oi :
  RhymeLookup.find_rhyming_characters ToneMapper.TONE_TO_1056
    ToneMapper.TONE_TO_0243 Sample.oi_aa "愛" "all" "0243" 50 None None
  = RhymeLookup.Found Sample2.oi_result
  ∧ Forall
      (λ r,
         RhymeLookup.Entry (RhymeLookup.character r) (RhymeLookup.jyutping r)
           (RhymeLookup.tone r)
         ∈ RhymeLookup.all_rhymes_of Sample.oi_aa
             (RhymeLookup.final Sample2.oi_result)
         ∧ RhymeLookup.tone_group r
           = RhymeLookup.get_tone_group ToneMapper.TONE_TO_1056
               ToneMapper.TONE_TO_0243 (RhymeLookup.tone r) "0243")
      (RhymeLookup.rhymes Sample2.oi_result).
Proof.
  assert (RhymeLookup.find_rhyming_characters ToneMapper.TONE_TO_1056
            ToneMapper.TONE_TO_0243 Sample.oi_aa "愛" "all" "0243" 50 None
            None
          = RhymeLookup.Found Sample2.oi_result) as H by (by vm_compute).
  split; [exact H|].
  exact (rhymes_share_the_final ToneMapper.TONE_TO_1056
           ToneMapper.TONE_TO_0243 Sample.oi_aa "愛" "all" "0243" 50 None
           None Sample2.oi_result H).
Defined.

Lemma rhymes_grow_with_limit_oi :
  0 ≤ 1 ≤ 2
  ∧ RhymeLookup.rhymes_of
      (RhymeLookup.find_rhyming_characters ToneMapper.TONE_TO_1056
         ToneMapper.TONE_TO_0243 Sample.oi_aa "愛" "all" "0243" 1 None None)
    `prefix_of`
    RhymeLookup.rhymes_of
      (RhymeLookup.find_rhyming_characters ToneMapper.TONE_TO_1056
         ToneMapper.TONE_TO_0243 Sample.oi_aa "愛" "all" "0243" 2 None None)
  ∧ Z.of_nat
      (length
         (RhymeLookup.rhymes_of
            (RhymeLookup.find_rhyming_characters ToneMapper.TONE_TO_1056
               ToneMapper.TONE_TO_0243 Sample.oi_aa "愛" "all" "0243" 1
               None None)))
    ≤ 1.
Proof.
  assert (0 ≤ 1 ≤ 2) as H by lia.
  split; [exact H|].
  exact (rhymes_grow_with_limit ToneMapper.TONE_TO_1056
           ToneMapper.TONE_TO_0243 Sample.oi_aa "愛" "all" "0243" 1 2 None
           None H).
Defined.

Lemma oi_first_reading :
  RhymeLookup.get_character_info Sample.oi_aa "愛" = Some [("oi", "oi3", 3)].
Proof. by vm_compute. Qed.

Lemma modes_nest_oi :
  RhymeLookup.get_character_info Sample.oi_aa "愛" = Some [("oi", "oi3", 3)]
  ∧ ∃ same group all,
      Spec.answers
        (RhymeLookup.find_rhyming_characters ToneMapper.TONE_TO_1056
         ToneMapper.TONE_TO_0243 Sample.oi_aa "愛" "same" "0243" 50 None None) 50 same
      ∧ Spec.answers
          (RhymeLookup.find_rhyming_characters ToneMapper.TONE_TO_1056
         ToneMapper.TONE_TO_0243 Sample.oi_aa "愛" "group" "0243" 50 None None) 50 group
      ∧ Spec.answers
          (RhymeLookup.find_rhyming_characters ToneMapper.TONE_TO_1056
         ToneMapper.TONE_TO_0243 Sample.oi_aa "愛" "all" "0243" 50 None None) 50 all
      ∧ same `sublist_of` group
      ∧ group `sublist_of` all.
Proof.
  split; [exact oi_first_reading|].
  exact (modes_nest ToneMapper.TONE_TO_1056 ToneMapper.TONE_TO_0243
           Sample.oi_aa "愛" "0243" 50 "oi" "oi3" 3 [] oi_first_reading).
Defined.

Lemma target_tone_within_its_group_oi :
  RhymeLookup.get_character_info Sample.oi_aa "愛" = Some [("oi", "oi3", 3)]
  ∧ ∃ by_tone by_group,
      Spec.answers
        (RhymeLookup.find_rhyming_characters ToneMapper.TONE_TO_1056
         ToneMapper.TONE_TO_0243 Sample.oi_aa "愛" "same" "0243" 50 (Some 6) None) 50 by_tone
      ∧ Spec.answers
          (RhymeLookup.find_rhyming_characters ToneMapper.TONE_TO_1056
         ToneMapper.TONE_TO_0243 Sample.oi_aa "愛" "all" "0243" 50 None
             (Some
                (RhymeLookup.get_tone_group ToneMapper.TONE_TO_1056
                   ToneMapper.TONE_TO_0243 6 "0243")))
          50 by_group
      ∧ by_tone `sublist_of` by_group.
Proof.
  split; [exact oi_first_reading|].
  exact (target_tone_within_its_group ToneMapper.TONE_TO_1056 ToneMapper.TONE_TO_0243
           Sample.oi_aa "愛" "0243" 50 "oi" "oi3" 3 [] 6 "same" "all" None
           oi_first_reading).
Defined.

Lemma oi_aa_wf : dict_wf Sample.oi_aa.
Proof. apply (bool_decide_unpack _). by vm_compute. Qed.

Lemma rhymes_are_final_minus_self_oi :
  dict_wf Sample.oi_aa
  ∧ RhymeLookup.get_character_info Sample.oi_aa "愛"
    = Some [("oi", "oi3", 3)]
  ∧ ∃ res characters count total,
      RhymeLookup.find_rhyming_characters ToneMapper.TONE_TO_1056
         ToneMapper.TONE_TO_0243 Sample.oi_aa "愛" "all" "0243" 1 None None
      = RhymeLookup.Found res
      ∧ RhymeLookup.get_characters_by_final Sample.oi_aa "oi" None 100
        = RhymeLookup.FinalFound "oi" None characters count total
      ∧ total
        = (RhymeLookup.total_count res
           + length
               (filter (λ e, RhymeLookup.e_char e = "愛")
                  (RhymeLookup.all_rhymes_of Sample.oi_aa "oi")))%nat
      ∧ (RhymeLookup.total_count res < total)%nat.
Proof.
  split; [exact oi_aa_wf|]. split; [exact oi_first_reading|].
  exact (rhymes_are_final_minus_self ToneMapper.TONE_TO_1056 ToneMapper.TONE_TO_0243
           Sample.oi_aa "愛" "0243" 1 100 "oi" "oi3" 3 [] oi_aa_wf
           oi_first_reading).
Defined.

Lemma default_query_oi :
  RhymeLookup.get_character_info Sample.oi_aa "愛" = Some [("oi", "oi3", 3)]
  ∧ ∃ res,
      Server.get_rhyming_characters ToneMapper.TONE_TO_1056 ToneMapper.TONE_TO_0243
        Sample.oi_aa "愛" None None None None None
      = RhymeLookup.Found res
      ∧ RhymeLookup.system res = "0243"
      ∧ RhymeLookup.tone_filter res = "all"
      ∧ RhymeLookup.rhymes res
        = take 50
            (Spec.siblings_where
               (RhymeLookup.get_tone_group ToneMapper.TONE_TO_1056 ToneMapper.TONE_TO_0243)
               "愛" "0243" (λ _, True)
               (RhymeLookup.all_rhymes_of Sample.oi_aa "oi"))
      ∧ (RhymeLookup.count res ≤ 50)%nat.
Proof.
  split; [exact oi_first_reading|].
  exact (default_query ToneMapper.TONE_TO_1056 ToneMapper.TONE_TO_0243
           Sample.oi_aa "愛" "oi" "oi3" 3 [] oi_first_reading).
Defined.

Lemma characters_by_final_filtered_oi :
  dict_get Sample.oi_aa "oi" = Some (RhymeLookup.FinalData (Some Sample.oi))
  ∧ ∃ characters count total_count,
      RhymeLookup.get_characters_by_final Sample.oi_aa "oi" (Some 6) 100
      = RhymeLookup.FinalFound "oi" (Some 6) characters count total_count
      ∧ characters `sublist_of` Sample.oi
      ∧ Forall (λ e, ∀ tone, Some 6 = Some tone → RhymeLookup.e_tone e = tone)
          characters
      ∧ count = length characters
      ∧ (count ≤ total_count)%nat
      ∧ (total_count ≤ length Sample.oi)%nat.
Proof.
  split; [reflexivity|].
  exact (characters_by_final_filtered Sample.oi_aa "oi" (Some 6) 100
           (RhymeLookup.FinalData (Some Sample.oi)) eq_refl).
Defined.

Lemma scraped_dataset_served_oi :
  ("oi", Sample.oi) ∈ Sample2.oi_tables
  ∧ RhymeLookup.Entry "外" "ngoi6" 6 ∈ Sample.oi
  ∧ (∃ readings tone,
       RhymeLookup.get_character_info
         (ScrapeRhymes.dumped (ScrapeRhymes.collect Sample2.oi_tables)) "外"
       = Some readings
       ∧ ("oi", "ngoi6", tone) ∈ readings)
  ∧ ∃ found count total_count,
      RhymeLookup.get_characters_by_final
        (ScrapeRhymes.dumped (ScrapeRhymes.collect Sample2.oi_tables))
        "oi" None 100
      = RhymeLookup.FinalFound "oi" None found count total_count
      ∧ (1 ≤ total_count)%nat.
Proof.
  assert (("oi", Sample.oi) ∈ Sample2.oi_tables) as H1 by (by left).
  assert (RhymeLookup.Entry "外" "ngoi6" 6 ∈ Sample.oi) as H2
    by (right; by left).
  split; [exact H1|]. split; [exact H2|].
  exact (scraped_dataset_served Sample2.oi_tables "oi" Sample.oi
           (RhymeLookup.Entry "外" "ngoi6" 6) 100 H1 H2).
Defined.

(** The set [seen] starts empty for each table: 愛, repeated by the second
    table, is stored a second time. *)
Example collect_oi_tables :
  ScrapeRhymes.collect Sample2.oi_tables
  = [("oi",
      Sample.oi
      ++ [RhymeLookup.Entry "愛" "oi3" 3; RhymeLookup.Entry "來" "loi4" 4])].
Proof. reflexivity. Qed.
